(** * RPC adapter of the node (rpc/adapters/ipcAdapter.ts) and the block
      chunk codec exercised by rpc/routes/chain/snapshotChain.test.ts.

    The adapter is embedded as state-passing code in a small state-and-error
    monad: the state holds the fields of [RpcIpcAdapter], the request
    objects (by reference, since the [pending] lists and the route handlers
    alias them), the [id] property of every socket object, and the trace of
    calls made on the external collaborators (node-ipc server, HTTP
    response, WebSocket client, router).  Every listener runs to completion
    before the next one starts; logging and [stop()] are left out. *)

From Stdlib Require Import ZArith List Ascii String DecimalString Lia.
From Stdlib.Strings Require Import Byte.
From stdpp Require Import base option list strings gmap.

Set Warnings "-register-all".

Local Open Scope Z_scope.
Local Open Scope string_scope.

(** ** JavaScript values that reach JSON.stringify *)

Module Js.

(** The [unknown] payloads handled by the adapter: JSON values plus
    [undefined].  Numbers are the integers a JavaScript number holds
    exactly and prints in plain decimal (magnitude below 2^53); fractions
    and larger magnitudes are outside the model.  Strings are byte strings
    holding the UTF-8 encoding of the text, objects list their own
    properties in insertion order; prototypes are not modelled. *)
Inductive value : Type :=
  | Undefined
  | Null
  | Bool (b : bool)
  | Num (n : Z)
  | Str (s : string)
  | Arr (items : list value)
  | Obj (props : list (string * value)).

Definition typeof (v : value) : string :=
  match v with
  | Undefined => "undefined"
  | Null => "object"
  | Bool _ => "boolean"
  | Num _ => "number"
  | Str _ => "string"
  | Arr _ => "object"
  | Obj _ => "object"
  end.

(** [obj[key]] for an own property. *)
Fixpoint get_prop (key : string) (props : list (string * value)) : option value :=
  match props with
  | [] => None
  | (k, v) :: rest => if String.eqb k key then Some v else get_prop key rest
  end.

(** ['key' in data], for a value already known to be a non-null object;
    arrays carry no named property in this model. *)
Definition has_prop (key : string) (v : value) : bool :=
  match v with
  | Obj props => bool_decide (is_Some (get_prop key props))
  | _ => false
  end.

(** [data[key]]; [undefined] when the property is missing. *)
Definition prop (key : string) (v : value) : value :=
  match v with
  | Obj props => default Undefined (get_prop key props)
  | _ => Undefined
  end.

(** [obj[key] = v] on an ordinary object: overwrite in place or append.
    An assignment to the key [__proto__] goes to the prototype setter and
    adds no own property. *)
Fixpoint set_prop (key : string) (v : value) (props : list (string * value))
  : list (string * value) :=
  if String.eqb key "__proto__" then props
  else
    match props with
    | [] => [(key, v)]
    | (k, w) :: rest =>
        if String.eqb k key then (k, v) :: rest else (k, w) :: set_prop key v rest
    end.

(** The own enumerable properties [Object.assign] copies from a source:
    those of an object, the indices of an array, the characters of a string
    (one per byte here), nothing for the other primitives. *)
Definition own_props (v : value) : list (string * value) :=
  match v with
  | Obj props => props
  | Arr items =>
      imap (fun i x => (NilZero.string_of_uint (Nat.to_uint i), x)) items
  | Str s =>
      imap (fun i c => (NilZero.string_of_uint (Nat.to_uint i), Str (String c EmptyString)))
           (list_ascii_of_string s)
  | _ => []
  end.

(** [Object.assign(target, source)] on property lists. *)
Definition assign (target source : list (string * value)) : list (string * value) :=
  fold_left (fun acc kv => set_prop kv.1 kv.2 acc) source target.

(** The double-quote character. *)
Definition dquote : ascii := "034"%char.

Definition hex_digit (n : N) : ascii :=
  ascii_of_N (if (n <? 10)%N then 48 + n else 87 + n).

(** Escaping of one character inside a JSON string literal. *)
Definition escape_char (c : ascii) : string :=
  let n := N_of_ascii c in
  if (n =? 34)%N then String "\"%char (String dquote EmptyString)
  else if (n =? 92)%N then "\\"
  else if (n =? 8)%N then "\b"
  else if (n =? 12)%N then "\f"
  else if (n =? 10)%N then "\n"
  else if (n =? 13)%N then "\r"
  else if (n =? 9)%N then "\t"
  else if (n <? 32)%N then
    "\u00" ++ String (hex_digit (n / 16)) (String (hex_digit (n mod 16)) "")
  else String c "".

Fixpoint escape (s : string) : string :=
  match s with
  | EmptyString => ""
  | String c rest => escape_char c ++ escape rest
  end.

Definition quote (s : string) : string :=
  String dquote (escape s ++ String dquote EmptyString).

(** Number to string on the integers of the model (magnitude below 2^53),
    which JavaScript prints in plain decimal. *)
Definition number_to_string (n : Z) : string :=
  NilZero.string_of_int (Z.to_int n).

Fixpoint join (sep : string) (parts : list string) : string :=
  match parts with
  | [] => ""
  | [p] => p
  | p :: rest => p ++ sep ++ join sep rest
  end.

(** [JSON.stringify(v)]; [None] is the result [undefined].  Array holes of
    [undefined] print as [null], object properties holding [undefined] are
    dropped. *)
Fixpoint stringify (v : value) : option string :=
  match v with
  | Undefined => None
  | Null => Some "null"
  | Bool true => Some "true"
  | Bool false => Some "false"
  | Num n => Some (number_to_string n)
  | Str s => Some (quote s)
  | Arr items =>
      Some ("[" ++ join "," (map (fun x => default "null" (stringify x)) items) ++ "]")
  | Obj props =>
      let fix members (ps : list (string * value)) : list string :=
        match ps with
        | [] => []
        | (k, x) :: rest =>
            match stringify x with
            | Some s => (quote k ++ ":" ++ s) :: members rest
            | None => members rest
            end
        end in
      Some ("{" ++ join "," (members props) ++ "}")
  end.

(** [str.endsWith(suffix)]. *)
Definition endsWith (s suffix : string) : bool :=
  let n := String.length s in
  let k := String.length suffix in
  (k <=? n)%nat && String.eqb (String.substring (n - k) k s) suffix.

(** [str.substring(1)]. *)
Definition substring1 (s : string) : string :=
  match s with
  | EmptyString => ""
  | String _ rest => rest
  end.

End Js.

(** ** Errors, completions and the adapter monad *)

(** The [Error] objects that travel through [throw] and [catch]:
    [ResponseError] (rpc/adapters/errors) carries a status and a code, any
    other error only its class name, message and stack. *)
Inductive Error : Type :=
  | ResponseError (status : Z) (code : string) (message : string) (stack : option string)
  | OtherError (name : string) (message : string) (stack : option string).

Definition error_message (e : Error) : string :=
  match e with
  | ResponseError _ _ m _ => m
  | OtherError _ m _ => m
  end.

Definition error_stack (e : Error) : option string :=
  match e with
  | ResponseError _ _ _ s => s
  | OtherError _ _ s => s
  end.

Inductive completion (A : Type) : Type :=
  | Normal (a : A)
  | Thrown (e : Error).
Arguments Normal {A} a.
Arguments Thrown {A} e.

(** Modelled from the spec: the Traffic Meter (metrics/meter), a byte
    counter with a start/stop lifecycle and [add(bytes)]. *)
Record Meter : Type := { running : bool; bytes : Z }.

Definition Meter_new : Meter := {| running := false; bytes := 0 |}.
Definition Meter_start (m : Meter) : Meter := {| running := true; bytes := bytes m |}.
Definition Meter_stop (m : Meter) : Meter := {| running := false; bytes := bytes m |}.
Definition Meter_add (n : Z) (m : Meter) : Meter :=
  {| running := running m; bytes := bytes m + n |}.

(** What a route handler does with the request context it is handed, in
    order, and how the route invocation then settles. *)
Inductive HandlerStep : Type :=
  | Stream (data : Js.value)
  | End (data : Js.value) (status : Z).

Inductive HandlerResult : Type :=
  | Return
  | Raise (e : Error).

Record Handler : Type := { steps : list HandlerStep; result : HandlerResult }.

(** The external router: [route(name, request)] runs the handler selected by
    the route name on the request data. *)
Record Router : Type := { handler_of : string -> Js.value -> Handler }.

Inductive IpcAdapterConnectionInfo : Type :=
  | ModeIpc (socketPath : string)
  | ModeTcp (host : string) (port : Z).

(** The two closures a request context is constructed with, by the place
    that builds them: [onMessage] (lines 350-355), the HTTP request handler
    (lines 189-196) and the WebSocket connection handler (lines 234-235). *)
Inductive Responder : Type :=
  | IpcResponder (socket : nat) (mid : Z)
  | HttpResponder (response : nat)
  | WsResponder (client : nat).

(** Modelled from the spec: the Request Context (class of rpc/request). It
    is constructed from the decoded parameters, the route name where the
    caller passes one, and the two callbacks only; it owns its closed flag. *)
Record RpcRequest : Type := {
  req_data : Js.value;
  req_route : option string;
  req_responder : Responder;
  req_closed : bool;
}.

(** Calls made on the external collaborators, in program order. *)
Inductive Call : Type :=
  | ServerEmit (server socket : nat) (event : string) (payload : Js.value)
  | ResponseWriteHead (response : nat) (status : Z)
  | ResponseWrite (response : nat) (body : option string)
  | ResponseEnd (response : nat)
  | WsSend (client : nat) (message : option string)
  | WsClose (client : nat)
  | RouterRoute (route : string) (request : nat)
  | IpcServe (socketPath : string)
  | IpcServeNet (host : string) (port : Z)
  | HttpListen (httpServer : nat) (port : Z) (host : string)
  | IpcServerStart (ipc : nat).

Record RpcIpcAdapter : Type := {
  router : option Router;
  ipc : option nat;
  server : option nat;
  httpServer : option nat;
  wsServer : option nat;
  pending : gmap string (list nat);
  started : bool;
  connection : IpcAdapterConnectionInfo;
  inboundTraffic : Meter;
  outboundTraffic : Meter;
}.

Record State : Type := {
  adapter : RpcIpcAdapter;
  requests : gmap nat RpcRequest;
  socket_id : gmap nat string;
  calls : list Call;
  next_object : nat;
}.

Definition M (A : Type) : Type := State -> completion A * State.

Definition ret {A} (a : A) : M A := fun st => (Normal a, st).
Definition throw {A} (e : Error) : M A := fun st => (Thrown e, st).
Definition bind {A B} (m : M A) (k : A -> M B) : M B :=
  fun st =>
    match m st with
    | (Normal a, st') => k a st'
    | (Thrown e, st') => (Thrown e, st')
    end.

Notation "'let*' x ':=' m 'in' k" := (bind m (fun x => k))
  (at level 10, x name, m at level 100, k at level 200).

(** [try { m } catch (error) { h error }]. *)
Definition try_catch {A} (m : M A) (h : Error -> M A) : M A :=
  fun st =>
    match m st with
    | (Normal a, st') => (Normal a, st')
    | (Thrown e, st') => h e st'
    end.

(** [try { m } finally { f }]. *)
Definition try_finally {A} (m : M A) (f : M unit) : M A :=
  fun st =>
    match m st with
    | (c, st') =>
        match f st' with
        | (Normal _, st'') => (c, st'')
        | (Thrown e, st'') => (Thrown e, st'')
        end
    end.

Definition get_state : M State := fun st => (Normal st, st).
Definition modify (f : State -> State) : M unit := fun st => (Normal tt, f st).

Fixpoint for_each {A} (f : A -> M unit) (l : list A) : M unit :=
  match l with
  | [] => ret tt
  | x :: rest => let* _ := f x in for_each f rest
  end.

(** *** Field updates *)

Definition set_adapter (f : RpcIpcAdapter -> RpcIpcAdapter) (st : State) : State :=
  {| adapter := f (adapter st); requests := requests st; socket_id := socket_id st;
     calls := calls st; next_object := next_object st |}.

Definition set_requests (f : gmap nat RpcRequest -> gmap nat RpcRequest) (st : State) : State :=
  {| adapter := adapter st; requests := f (requests st); socket_id := socket_id st;
     calls := calls st; next_object := next_object st |}.

Definition set_socket_id (f : gmap nat string -> gmap nat string) (st : State) : State :=
  {| adapter := adapter st; requests := requests st; socket_id := f (socket_id st);
     calls := calls st; next_object := next_object st |}.

Definition add_call (c : Call) (st : State) : State :=
  {| adapter := adapter st; requests := requests st; socket_id := socket_id st;
     calls := (calls st ++ [c])%list; next_object := next_object st |}.

Definition bump_object (st : State) : State :=
  {| adapter := adapter st; requests := requests st; socket_id := socket_id st;
     calls := calls st; next_object := S (next_object st) |}.

Definition with_pending (f : gmap string (list nat) -> gmap string (list nat))
  (a : RpcIpcAdapter) : RpcIpcAdapter :=
  {| router := router a; ipc := ipc a; server := server a; httpServer := httpServer a;
     wsServer := wsServer a; pending := f (pending a); started := started a;
     connection := connection a; inboundTraffic := inboundTraffic a;
     outboundTraffic := outboundTraffic a |}.

Definition with_inbound (f : Meter -> Meter) (a : RpcIpcAdapter) : RpcIpcAdapter :=
  {| router := router a; ipc := ipc a; server := server a; httpServer := httpServer a;
     wsServer := wsServer a; pending := pending a; started := started a;
     connection := connection a; inboundTraffic := f (inboundTraffic a);
     outboundTraffic := outboundTraffic a |}.

Definition with_outbound (f : Meter -> Meter) (a : RpcIpcAdapter) : RpcIpcAdapter :=
  {| router := router a; ipc := ipc a; server := server a; httpServer := httpServer a;
     wsServer := wsServer a; pending := pending a; started := started a;
     connection := connection a; inboundTraffic := inboundTraffic a;
     outboundTraffic := f (outboundTraffic a) |}.

Definition with_started (b : bool) (a : RpcIpcAdapter) : RpcIpcAdapter :=
  {| router := router a; ipc := ipc a; server := server a; httpServer := httpServer a;
     wsServer := wsServer a; pending := pending a; started := b;
     connection := connection a; inboundTraffic := inboundTraffic a;
     outboundTraffic := outboundTraffic a |}.

Definition with_ipc (o : option nat) (a : RpcIpcAdapter) : RpcIpcAdapter :=
  {| router := router a; ipc := o; server := server a; httpServer := httpServer a;
     wsServer := wsServer a; pending := pending a; started := started a;
     connection := connection a; inboundTraffic := inboundTraffic a;
     outboundTraffic := outboundTraffic a |}.

Definition with_server (o : option nat) (a : RpcIpcAdapter) : RpcIpcAdapter :=
  {| router := router a; ipc := ipc a; server := o; httpServer := httpServer a;
     wsServer := wsServer a; pending := pending a; started := started a;
     connection := connection a; inboundTraffic := inboundTraffic a;
     outboundTraffic := outboundTraffic a |}.

Definition with_httpServer (o : option nat) (a : RpcIpcAdapter) : RpcIpcAdapter :=
  {| router := router a; ipc := ipc a; server := server a; httpServer := o;
     wsServer := wsServer a; pending := pending a; started := started a;
     connection := connection a; inboundTraffic := inboundTraffic a;
     outboundTraffic := outboundTraffic a |}.

Definition with_wsServer (o : option nat) (a : RpcIpcAdapter) : RpcIpcAdapter :=
  {| router := router a; ipc := ipc a; server := server a; httpServer := httpServer a;
     wsServer := o; pending := pending a; started := started a;
     connection := connection a; inboundTraffic := inboundTraffic a;
     outboundTraffic := outboundTraffic a |}.

Definition with_router (o : option Router) (a : RpcIpcAdapter) : RpcIpcAdapter :=
  {| router := o; ipc := ipc a; server := server a; httpServer := httpServer a;
     wsServer := wsServer a; pending := pending a; started := started a;
     connection := connection a; inboundTraffic := inboundTraffic a;
     outboundTraffic := outboundTraffic a |}.

(** *** Primitive effects *)

Definition call (c : Call) : M unit := modify (add_call c).

(** [new C(...)]: a fresh object reference. *)
Definition new_object : M nat :=
  fun st => (Normal (next_object st), bump_object st).

(** [Assert.isNotNull(x)]. *)
Definition Assert_isNotNull {A} (x : option A) : M A :=
  match x with
  | Some a => ret a
  | None => throw (OtherError "Error" "Expected value not to be null" None)
  end.

(** The error [Buffer.from] throws when handed [undefined]. *)
Definition Buffer_from_TypeError : Error :=
  OtherError "TypeError"
    "The first argument must be of type string or an instance of Buffer" None.

(** [Buffer.from(s).byteLength] applied to the result of JSON.stringify:
    the UTF-8 length of a string, a TypeError on [undefined]. *)
Definition Buffer_byteLength (s : option string) : M Z :=
  match s with
  | Some str => ret (Z.of_nat (String.length str))
  | None => throw Buffer_from_TypeError
  end.

(** A string is truthy unless it is missing or empty: [!socket.id],
    [socket.id || null]. *)
Definition truthy_id (o : option string) : option string :=
  match o with
  | Some EmptyString => None
  | Some s => Some s
  | None => None
  end.

(** ** The adapter's methods (local-socket/TCP channel) *)

Section Adapter.

(** The stack trace the runtime attaches to an error the adapter creates
    itself with [new Error(...)]. *)
Variable new_Error_stack : option string.

(** The identifiers produced by successive calls of [uuid()]. *)
Variable uuid : nat -> string.

(** Modelled from the spec: the fallback error code [ERROR_CODES.ERROR] of
    rpc/adapters/errors, which the error payload carries for unstructured
    failures. *)
Definition ERROR_CODES_ERROR : string := "ERROR".

(** [renderError(error)], lines 389-397. *)
Definition renderError (error : Error) : Js.value :=
  let code :=
    match error with
    | ResponseError _ c _ _ => c
    | OtherError _ _ _ => ERROR_CODES_ERROR
    end in
  Js.Obj [("code", Js.Str code);
          ("message", Js.Str (error_message error));
          ("stack", match error_stack error with
                    | Some s => Js.Str s
                    | None => Js.Undefined
                    end)].

(** [emitResponse], lines 377-381. *)
Definition emitResponse (socket : nat) (messageId status : Z) (data : Js.value) : M unit :=
  let* st := get_state in
  let* srv := Assert_isNotNull (server (adapter st)) in
  let* _ := call (ServerEmit srv socket "message"
                    (Js.Obj [("id", Js.Num messageId); ("status", Js.Num status);
                             ("data", data)])) in
  let* n := Buffer_byteLength (Js.stringify data) in
  modify (set_adapter (with_outbound (Meter_add n))).

(** [emitStream], lines 383-387. *)
Definition emitStream (socket : nat) (messageId : Z) (data : Js.value) : M unit :=
  let* st := get_state in
  let* srv := Assert_isNotNull (server (adapter st)) in
  let* _ := call (ServerEmit srv socket "stream"
                    (Js.Obj [("id", Js.Num messageId); ("data", data)])) in
  let* n := Buffer_byteLength (Js.stringify data) in
  modify (set_adapter (with_outbound (Meter_add n))).

(** [handleMalformedRequest], lines 399-416. *)
Definition handleMalformedRequest (socket : nat) (data : Js.value) : M unit :=
  let* st := get_state in
  let* srv := Assert_isNotNull (server (adapter st)) in
  let error := renderError (OtherError "Error" "Malformed request rejected" new_Error_stack) in
  if String.eqb (Js.typeof data) "object"
     && negb (match data with Js.Null => true | _ => false end)
     && Js.has_prop "id" data
     && String.eqb (Js.typeof (Js.prop "id" data)) "number"
  then
    match Js.prop "id" data with
    | Js.Num id => emitResponse socket id 500 error
    | _ => ret tt
    end
  else
    let* _ := call (ServerEmit srv socket "malformedRequest" error) in
    let* n := Buffer_byteLength (Js.stringify error) in
    modify (set_adapter (with_outbound (Meter_add n))).

(** *** Request contexts *)

(** The terminal callback handed to the context, per transport. *)
Definition onEnd (r : Responder) (status : Z) (data : Js.value) : M unit :=
  match r with
  | IpcResponder socket mid => emitResponse socket mid status data
  | HttpResponder response =>
      let* _ := call (ResponseWriteHead response status) in
      call (ResponseWrite response
              (Js.stringify (Js.Obj [("status", Js.Num status); ("data", data)])))
  | WsResponder client =>
      call (WsSend client
              (Js.stringify (Js.Obj [("status", Js.Num status); ("data", data)])))
  end.

(** The non-terminal callback handed to the context, per transport. *)
Definition onStream (r : Responder) (data : Js.value) : M unit :=
  match r with
  | IpcResponder socket mid => emitStream socket mid data
  | HttpResponder response =>
      let* _ := call (ResponseWriteHead response 200) in
      call (ResponseWrite response
              (Js.stringify (Js.Obj [("status", Js.Num 200); ("data", data)])))
  | WsResponder client => call (WsSend client (Js.stringify data))
  end.

Definition mark_closed (r : RpcRequest) : RpcRequest :=
  {| req_data := req_data r; req_route := req_route r;
     req_responder := req_responder r; req_closed := true |}.

Definition is_closed (st : State) (request : nat) : bool :=
  match requests st !! request with
  | Some r => req_closed r
  | None => false
  end.

(** [new RpcRequest(data, route, onEnd, onStream)], lines 347-356. *)
Definition new_request (data : Js.value) (route : option string) (r : Responder) : M nat :=
  let* request := new_object in
  let* _ := modify (set_requests
                      (insert request {| req_data := data; req_route := route;
                                         req_responder := r; req_closed := false |})) in
  ret request.

(** The error raised by evaluating a name that is bound nowhere. *)
Definition Request_unbound : Error :=
  OtherError "ReferenceError" "Request is not defined" None.

(** [new Request(params, onEnd, onStream)], lines 187-197 and 232-236: the
    module imports [RpcRequest] only and declares no [Request], so
    evaluating the expression throws and no request context is made. *)
Definition new_Request (params : Js.value) (r : Responder) : M nat :=
  throw Request_unbound.

(** Modelled from the spec: the respond operation of the Request Context
    ([request.end(data, status)]): a no-op once closed, otherwise the
    context is marked closed and the terminal callback runs once.  The
    context holds no reference to the adapter's [pending] map, so the
    registry is touched only by the adapter's own methods. *)
Definition RpcRequest_end (request : nat) (data : Js.value) (status : Z) : M unit :=
  let* st := get_state in
  match requests st !! request with
  | None => ret tt
  | Some r =>
      if req_closed r then ret tt
      else
        let* _ := modify (set_requests (alter mark_closed request)) in
        onEnd (req_responder r) status data
  end.

(** Modelled from the spec: the stream operation of the Request Context: a
    no-op once closed, otherwise the non-terminal callback runs; the
    context stays open. *)
Definition RpcRequest_stream (request : nat) (data : Js.value) : M unit :=
  let* st := get_state in
  match requests st !! request with
  | None => ret tt
  | Some r =>
      if req_closed r then ret tt else onStream (req_responder r) data
  end.

(** Modelled from the spec: the forced close of the Request Context: marks
    it closed and sends nothing. *)
Definition RpcRequest_close (request : nat) : M unit :=
  modify (set_requests (alter mark_closed request)).

Definition run_step (request : nat) (s : HandlerStep) : M unit :=
  match s with
  | Stream data => RpcRequest_stream request data
  | End data status => RpcRequest_end request data status
  end.

(** [router.route(name, request)]: the selected handler works on the
    context and the invocation settles with its result; an exception raised
    by a context operation leaves the handler at once. *)
Definition Router_route (r : Router) (name : string) (request : nat) : M unit :=
  let* _ := call (RouterRoute name request) in
  let* st := get_state in
  let h := handler_of r name (default Js.Undefined (req_data <$> requests st !! request)) in
  let* _ := for_each (run_step request) (steps h) in
  match result h with
  | Return => ret tt
  | Raise e => throw e
  end.

(** *** Inbound messages *)

Record IpcRequest : Type := { mid : Z; type : string; data : Js.value }.

(** Modelled from the spec: [YupUtils.tryValidate(IpcRequestSchema, data)]
    (lines 51-57): the message must be an object whose [mid] is present and
    numeric and whose [type] is a non-empty string; [data] passes through
    unvalidated.  [None] is a validation error. *)
Definition tryValidate (raw : Js.value) : option IpcRequest :=
  match raw with
  | Js.Obj props =>
      match Js.get_prop "mid" props, Js.get_prop "type" props with
      | Some (Js.Num m), Some (Js.Str (String c t)) =>
          Some {| mid := m; type := String c t;
                  data := default Js.Undefined (Js.get_prop "data" props) |}
      | _, _ => None
      end
  | _ => None
  end.

(** The try/catch statement that closes [onMessage], lines 366-374. *)
Definition onMessage_route (socket : nat) (message : IpcRequest) (r : Router) (request : nat)
  : M unit :=
  try_catch (Router_route r (type message) request)
    (fun error =>
       match error with
       | ResponseError status _ _ _ =>
           emitResponse socket (mid message) status (renderError error)
       | OtherError _ _ _ => throw error
       end).

(** [onMessage], lines 326-375. *)
Definition onMessage (socket : nat) (raw : Js.value) : M unit :=
  let* st := get_state in
  match truthy_id (socket_id st !! socket) with
  | None => ret tt
  | Some sid =>
      match tryValidate raw with
      | None => handleMalformedRequest socket raw
      | Some message =>
          let* n := Buffer_byteLength (Js.stringify raw) in
          let* _ := modify (set_adapter (with_inbound (Meter_add n))) in
          let* r := Assert_isNotNull (router (adapter st)) in
          let* _ := Assert_isNotNull (server (adapter st)) in
          let* request :=
            new_request (data message) (Some (type message))
              (IpcResponder socket (mid message)) in
          let* _ := modify (set_adapter
                              (with_pending
                                 (fun p => <[sid := (default [] (p !! sid) ++ [request])%list]> p))) in
          onMessage_route socket message r request
      end
  end.

(** [onConnect], lines 304-309. *)
Definition onConnect (socket : nat) : M unit :=
  let* st := get_state in
  match truthy_id (socket_id st !! socket) with
  | Some _ => ret tt
  | None =>
      let* n := new_object in
      modify (set_socket_id (insert socket (uuid n)))
  end.

(** [onDisconnect], lines 311-324. *)
Definition onDisconnect (socket : nat) (socketId : option string) : M unit :=
  match socketId with
  | None => ret tt
  | Some sid =>
      let* st := get_state in
      match pending (adapter st) !! sid with
      | None => ret tt
      | Some reqs =>
          let* _ := for_each RpcRequest_close reqs in
          modify (set_adapter (with_pending (delete sid)))
      end
  end.

(** The listeners installed by [onServed], lines 131-141. *)
Definition on_connect (socket : nat) : M unit := onConnect socket.

Definition on_socket_disconnected (socket : nat) : M unit :=
  let* st := get_state in
  onDisconnect socket (truthy_id (socket_id st !! socket)).

Definition on_message (raw : Js.value) (socket : nat) : M unit :=
  try_catch (onMessage socket raw) (fun _ => ret tt).

(** *** Lifecycle *)

(** [attach(server)], lines 300-302, with the router the server returns. *)
Definition attach (r : Router) : M unit :=
  modify (set_adapter (with_router (Some r))).

(** The [onServed] callback of [start], lines 125-144: [ipc.server] is the
    server of the [IPC] object made by [start]. *)
Definition onServed : M unit :=
  modify (set_adapter (fun a => with_server (ipc a) a)).

(** ** HTTP and WebSocket listeners *)

(** An incoming HTTP request as the handler reads it: the method, the parts
    of [new URL('http://localhost' + request.url)], and the outcome of
    [JSON.parse] on the collected body ([None] when it throws). *)
Record IncomingMessage : Type := {
  method : string;
  pathname : string;
  search : string;
  searchParams : list (string * string);
  parsed_body : option Js.value;
}.

(** The parameter object built from the query string, lines 169-177 and
    222-230. *)
Definition query_params (request : IncomingMessage) : Js.value :=
  if negb (String.eqb (search request) EmptyString) then
    Js.Obj (fold_left (fun params kv => Js.set_prop kv.1 (Js.Str kv.2) params)
              (searchParams request) [])
  else Js.Undefined.

(** [Object.assign(params || {}, body)]. *)
Definition merge_body (params body : Js.value) : Js.value :=
  let target := match params with Js.Obj props => props | _ => [] end in
  Js.Obj (Js.assign target (Js.own_props body)).

(** The request listener given to [http.createServer], lines 160-211.
    The statements after [new Request] are written as the source has them;
    they are not reached. *)
Definition http_request_listener (request : IncomingMessage) (response : nat) : M unit :=
  let route := Js.substring1 (pathname request) in
  let params := query_params request in
  let* params :=
    if String.eqb (method request) "POST" || String.eqb (method request) "PUT" then
      match parsed_body request with
      | Some body => ret (merge_body params body)
      | None => throw (OtherError "SyntaxError" "Unexpected token in JSON" new_Error_stack)
      end
    else ret params in
  let* ipcRequest := new_Request params (HttpResponder response) in
  try_finally
    (try_catch
       (let* st := get_state in
        match router (adapter st) with
        | Some r => Router_route r route ipcRequest
        | None => ret tt
        end)
       (fun error =>
          match error with
          | ResponseError status _ _ _ =>
              let* _ := call (ResponseWriteHead response status) in
              call (ResponseWrite response
                      (Js.stringify (Js.Obj [("status", Js.Num status);
                                             ("data", renderError error)])))
          | OtherError _ _ _ => throw error
          end))
    (let* _ := call (ResponseEnd response) in
     RpcRequest_close ipcRequest).

(** The ['connection'] listener of the WebSocket server, lines 213-249. *)
Definition ws_connection_listener (wsClient : nat) (request : IncomingMessage) : M unit :=
  let route := Js.substring1 (pathname request) in
  if negb (Js.endsWith route "Stream") then call (WsClose wsClient)
  else
    let params := query_params request in
    let* ipcRequest := new_Request params (WsResponder wsClient) in
    try_catch
      (let* st := get_state in
       match router (adapter st) with
       | Some r => Router_route r route ipcRequest
       | None => ret tt
       end)
      (fun error =>
         match error with
         | ResponseError status _ _ _ =>
             let* _ := RpcRequest_end ipcRequest (renderError error) status in
             call (WsClose wsClient)
         | OtherError _ _ _ =>
             let* _ := call (WsClose wsClient) in
             throw error
         end).

(** [start()], lines 109-258, up to the point where the returned promise
    waits for [onServed]. *)
Definition start : M unit :=
  let* st := get_state in
  if started (adapter st) then ret tt
  else
    let* _ := modify (set_adapter (with_started true)) in
    let* _ := modify (set_adapter (with_inbound Meter_start)) in
    let* _ := modify (set_adapter (with_outbound Meter_start)) in
    let* ipc := new_object in
    let* _ := modify (set_adapter (with_ipc (Some ipc))) in
    let* _ :=
      match connection (adapter st) with
      | ModeIpc socketPath => call (IpcServe socketPath)
      | ModeTcp host port =>
          let* _ := call (IpcServeNet host port) in
          let* http := new_object in
          let* _ := modify (set_adapter (with_httpServer (Some http))) in
          let* ws := new_object in
          let* _ := modify (set_adapter (with_wsServer (Some ws))) in
          call (HttpListen http (port + 1) host)
      end in
    call (IpcServerStart ipc).

End Adapter.

(** [new RpcIpcAdapter(namespaces, connection, logger)], lines 86-107. *)
Definition RpcIpcAdapter_new (c : IpcAdapterConnectionInfo) : RpcIpcAdapter :=
  {| router := None; ipc := None; server := None; httpServer := None; wsServer := None;
     pending := ∅; started := false; connection := c;
     inboundTraffic := Meter_new; outboundTraffic := Meter_new |}.

Definition initial_state (c : IpcAdapterConnectionInfo) : State :=
  {| adapter := RpcIpcAdapter_new c; requests := ∅; socket_id := ∅; calls := [];
     next_object := 0 |}.

(** ** Block chunk codec (network/utils/block, used by the snapshot test) *)

Module Block.

Local Open Scope N_scope.

Definition byte_of_N (n : N) : byte := default x00 (Byte.of_N (n mod 256)).

(** Little-endian fixed-width integers of the buffer writer and reader. *)
Fixpoint write_le (width : nat) (n : N) : list byte :=
  match width with
  | O => []
  | S w => byte_of_N n :: write_le w (n / 256)
  end.

Fixpoint read_le (width : nat) (bs : list byte) : option (N * list byte) :=
  match width with
  | O => Some (0, bs)
  | S w =>
      match bs with
      | [] => None
      | b :: rest =>
          match read_le w rest with
          | Some (hi, rest') => Some (Byte.to_N b + 256 * hi, rest')
          | None => None
          end
      end
  end.

(** Modelled from the spec: the varint of the chunk layout, in the form the
    buffer library of the test (bufio) gives it: one byte below 0xfd, else a
    marker byte followed by 2, 4 or 8 little-endian bytes. *)
Definition sizeVarint (n : N) : nat :=
  if n <? 253 then 1%nat
  else if n <=? 65535 then 3%nat
  else if n <=? 4294967295 then 5%nat
  else 9%nat.

Definition writeVarint (n : N) : list byte :=
  if n <? 253 then [byte_of_N n]
  else if n <=? 65535 then xfd :: write_le 2 n
  else if n <=? 4294967295 then xfe :: write_le 4 n
  else xff :: write_le 8 n.

Definition readVarint (bs : list byte) : option (N * list byte) :=
  match bs with
  | [] => None
  | b :: rest =>
      let n := Byte.to_N b in
      if n =? 253 then read_le 2 rest
      else if n =? 254 then read_le 4 rest
      else if n =? 255 then read_le 8 rest
      else Some (n, rest)
  end.

(** [readBytes(size)]: fails when the reader runs out of data. *)
Definition readBytes (size : nat) (bs : list byte) : option (list byte * list byte) :=
  if (size <=? length bs)%nat then Some (take size bs, drop size bs) else None.

Definition writeVarBytes (value : list byte) : list byte :=
  writeVarint (N.of_nat (length value)) ++ value.

Definition readVarBytes (bs : list byte) : option (list byte * list byte) :=
  match readVarint bs with
  | Some (n, rest) => readBytes (N.to_nat n) rest
  | None => None
  end.

(** A serialized block: a header blob of the fixed header size and the
    transaction blobs. *)
Record SerializedBlock : Type := {
  header : list byte;
  transactions : list (list byte);
}.

Section Codec.

(** The fixed size of a serialized header, owned by the chain format. *)
Variable header_size : nat.

(** Modelled from the spec: [getBlockSize], the exact encoded size
    (header size + varint(txCount) + the sum of varint(len) + len). *)
Definition getBlockSize (block : SerializedBlock) : nat :=
  (header_size
   + sizeVarint (N.of_nat (length (transactions block)))
   + foldr (fun tx acc => sizeVarint (N.of_nat (length tx)) + length tx + acc) 0
       (transactions block))%nat.

(** Modelled from the spec: [writeBlock], the bytes put into the writer:
    header, transaction count, then each transaction length-prefixed. *)
Definition writeBlock (block : SerializedBlock) : list byte :=
  header block
  ++ writeVarint (N.of_nat (length (transactions block)))
  ++ concat (map writeVarBytes (transactions block)).

Fixpoint readTransactions (count : nat) (bs : list byte)
  : option (list (list byte) * list byte) :=
  match count with
  | O => Some ([], bs)
  | S c =>
      match readVarBytes bs with
      | Some (tx, rest) =>
          match readTransactions c rest with
          | Some (txs, rest') => Some (tx :: txs, rest')
          | None => None
          end
      | None => None
      end
  end.

(** Modelled from the spec: [readBlock], the inverse of [writeBlock]; the
    second component is what the reader has not consumed. *)
Definition readBlock (bs : list byte) : option (SerializedBlock * list byte) :=
  match readBytes header_size bs with
  | Some (h, rest) =>
      match readVarint rest with
      | Some (count, rest') =>
          match readTransactions (N.to_nat count) rest' with
          | Some (txs, rest'') => Some ({| header := h; transactions := txs |}, rest'')
          | None => None
          end
      | None => None
      end
  | None => None
  end.

End Codec.

End Block.

(** ** Definitions used by the statements *)

(** The state a computation leaves behind, whether it returns or throws. *)
Definition state_after {A} (m : M A) (st : State) : State := (m st).2.

(** Frame: [m] changes neither the registry nor the server binding. *)
Definition keeps_wiring {A} (m : M A) : Prop :=
  forall st,
    pending (adapter (m st).2) = pending (adapter st)
    /\ server (adapter (m st).2) = server (adapter st).

(** The serialized byte length the meters are fed with. *)
Definition byteLength (v : Js.value) : Z :=
  match Js.stringify v with
  | Some s => Z.of_nat (String.length s)
  | None => 0
  end.

(** The state in which [onMessage] hands a validated message to the router
    (lines 338-364): inbound bytes counted, the context allocated and pushed
    on the pending list of the connection. *)
Definition dispatched (st : State) (socket : nat) (sid : string) (raw : Js.value)
    (message : IpcRequest) : State :=
  set_adapter
    (with_pending
       (fun p => <[sid := (default [] (p !! sid) ++ [next_object st])%list]> p))
    (set_requests
       (insert (next_object st)
          {| req_data := data message; req_route := Some (type message);
             req_responder := IpcResponder socket (mid message); req_closed := false |})
       (bump_object (set_adapter (with_inbound (Meter_add (byteLength raw))) st))).

(** The payload [handleMalformedRequest] renders. *)
Definition malformed_error (stack : option string) : Js.value :=
  renderError (OtherError "Error" "Malformed request rejected" stack).


(** *** A concrete adapter for the examples *)

Definition demo_router : Router :=
  {| handler_of := fun name _ =>
       if String.eqb name "chain/getInfo" then
         {| steps := [End (Js.Obj [("height", Js.Num 2)]) 200]; result := Return |}
       else if String.eqb name "chain/followStream" then
         {| steps := [Stream (Js.Num 5)]; result := Return |}
       else if String.eqb name "wallet/create" then
         {| steps := [];
            result := Raise (ResponseError 400 "account-exists" "Account exists" None) |}
       else
         {| steps := []; result := Raise (OtherError "Error" "boom" None) |} |}.

Definition demo_uuid (n : nat) : string := "client".

(** A TCP-mode adapter, attached, started and served, with socket 7
    connected under the id [client]. *)
Definition ready_state : State := Eval vm_compute in
  state_after (onConnect demo_uuid 7)
    (state_after onServed
       (state_after start
          (state_after (attach demo_router) (initial_state (ModeTcp "localhost" 8020))))).

Definition message (m : Z) (t : string) : Js.value :=
  Js.Obj [("mid", Js.Num m); ("type", Js.Str t)].

(** Two streaming requests in flight on socket 7. *)
Definition busy_state : State := Eval vm_compute in
  state_after (onMessage None 7 (message 2 "chain/followStream"))
    (state_after (onMessage None 7 (message 1 "chain/followStream")) ready_state).

Definition create_message : IpcRequest :=
  {| mid := 3; type := "wallet/create"; data := Js.Undefined |}.

Definition account_exists : Error :=
  ResponseError 400 "account-exists" "Account exists" None.

Definition create_failed : State := Eval vm_compute in
  state_after
    (Router_route demo_router "wallet/create" (next_object ready_state))
    (dispatched ready_state 7 "client" (message 3 "wallet/create") create_message).

Definition get_chain_info : IncomingMessage :=
  {| method := "GET"; pathname := "/chain/getInfo"; search := EmptyString;
     searchParams := []; parsed_body := None |}.

Definition get_follow_stream : IncomingMessage :=
  {| method := "GET"; pathname := "/chain/followStream"; search := EmptyString;
     searchParams := []; parsed_body := None |}.

Definition sample_block : Block.SerializedBlock :=
  {| Block.header := [x01; x02; x03];
     Block.transactions := [[xaa; xbb]; []; [xff]] |}.

(** *** Relational frames *)

(** [m] relates every state to the state it leaves behind by [R], whether
    it returns or throws. *)
Definition preserves {A} (R : State -> State -> Prop) (m : M A) : Prop :=
  forall st, R st (m st).2.

(** Every adapter field except the outbound meter is the same. *)
Definition same_but_outbound (st st' : State) : Prop :=
  with_outbound (fun _ => Meter_new) (adapter st')
  = with_outbound (fun _ => Meter_new) (adapter st).

(** Every pending list of [st] is still in [st'], possibly extended at its
    end. *)
Definition registry_kept (st st' : State) : Prop :=
  forall sid reqs,
    pending (adapter st) !! sid = Some reqs ->
    exists more, pending (adapter st') !! sid = Some (reqs ++ more)%list.

(** A call that is the route invocation, or an emission on [socket] whose
    payload carries [id]. *)
Definition answers_on (srv socket : nat) (id : Z) (c : Call) : Prop :=
  (exists name request, c = RouterRoute name request)
  \/ (exists event payload,
        c = ServerEmit srv socket event payload /\ Js.prop "id" payload = Js.Num id).

(** The server is bound and [request] is a context whose callbacks emit on
    [socket] under [id]. *)
Definition bound_context (srv socket : nat) (id : Z) (request : nat) (st : State) : Prop :=
  server (adapter st) = Some srv
  /\ exists q, requests st !! request = Some q /\ req_responder q = IpcResponder socket id.

(** From a state with such a context, only calls that [answers_on] accepts
    are added, and the context stays bound. *)
Definition correlated (srv socket : nat) (id : Z) (request : nat) (st st' : State) : Prop :=
  bound_context srv socket id request st ->
  bound_context srv socket id request st'
  /\ exists new, calls st' = (calls st ++ new)%list /\ Forall (answers_on srv socket id) new.

(** The parameters the HTTP listener hands to the request context, lines
    169-185; [None] when [JSON.parse] throws on the body of a POST or PUT. *)
Definition http_params (request : IncomingMessage) : option Js.value :=
  if String.eqb (method request) "POST" || String.eqb (method request) "PUT" then
    merge_body (query_params request) <$> parsed_body request
  else Some (query_params request).

(** The wire message a stream chunk becomes on the local-socket/TCP channel. *)
Definition stream_event (srv socket : nat) (id : Z) (chunk : Js.value) : Call :=
  ServerEmit srv socket "stream" (Js.Obj [("id", Js.Num id); ("data", chunk)]).

(** *** Further concrete inputs *)

Definition info_message : IpcRequest :=
  {| mid := 1; type := "chain/getInfo"; data := Js.Undefined |}.

(** An adapter that is started and served with socket 7 connected, but
    with no router attached. *)
Definition unattached_state : State := Eval vm_compute in
  state_after (onConnect demo_uuid 7)
    (state_after onServed
       (state_after start (initial_state (ModeTcp "localhost" 8020)))).

Definition post_garbage : IncomingMessage :=
  {| method := "POST"; pathname := "/wallet/create"; search := EmptyString;
     searchParams := []; parsed_body := None |}.

Definition first_stream_request : RpcRequest :=
  {| req_data := Js.Undefined; req_route := Some "chain/followStream";
     req_responder := IpcResponder 7 1; req_closed := false |}.

(** * Properties *)

(** ** JSON.stringify *)

Example stringify_nested :
  Js.stringify (Js.Obj [("status", Js.Num 200);
                        ("data", Js.Arr [Js.Undefined; Js.Bool true; Js.Num (-3)]);
                        ("none", Js.Undefined)])
  = Some ("{" ++ Js.quote "status" ++ ":200," ++ Js.quote "data" ++ ":[null,true,-3]}").
Proof. reflexivity. Qed.


Lemma stringify_None (v : Js.value) : Js.stringify v = None <-> v = Js.Undefined.
Proof. destruct v as [| |[]| | | |]; simpl; split; congruence. Qed.

Lemma stringify_renderError (e : Error) : is_Some (Js.stringify (renderError e)).
Proof. unfold renderError. simpl. eauto. Qed.



(** ** Frame lemmas: the registry and the server binding *)

Lemma kw_ret {A} (a : A) : keeps_wiring (ret a).
Proof. by intros st. Qed.

Lemma kw_throw {A} (e : Error) : keeps_wiring (@throw A e).
Proof. by intros st. Qed.

Lemma kw_get_state : keeps_wiring get_state.
Proof. by intros st. Qed.

Lemma kw_bind {A B} (m : M A) (k : A -> M B) :
  keeps_wiring m -> (forall a, keeps_wiring (k a)) -> keeps_wiring (bind m k).
Proof.
  intros Hm Hk st. unfold bind.
  specialize (Hm st). destruct (m st) as [[a|e] st']; simpl in *; [|done].
  destruct (Hk a st') as [-> ->]. done.
Qed.

Lemma kw_try_catch {A} (m : M A) (h : Error -> M A) :
  keeps_wiring m -> (forall e, keeps_wiring (h e)) -> keeps_wiring (try_catch m h).
Proof.
  intros Hm Hh st. unfold try_catch.
  specialize (Hm st). destruct (m st) as [[a|e] st']; simpl in *; [done|].
  destruct (Hh e st') as [-> ->]. done.
Qed.

Lemma kw_call (c : Call) : keeps_wiring (call c).
Proof. by intros st. Qed.

Lemma kw_outbound (f : Meter -> Meter) :
  keeps_wiring (modify (set_adapter (with_outbound f))).
Proof. by intros st. Qed.

Lemma kw_requests f : keeps_wiring (modify (set_requests f)).
Proof. by intros st. Qed.

Lemma kw_Assert {A} (x : option A) : keeps_wiring (Assert_isNotNull x).
Proof. destruct x; [apply kw_ret | apply kw_throw]. Qed.

Lemma kw_Buffer (s : option string) : keeps_wiring (Buffer_byteLength s).
Proof. destruct s; [apply kw_ret | apply kw_throw]. Qed.

Lemma kw_for_each {A} (f : A -> M unit) (l : list A) :
  (forall x, keeps_wiring (f x)) -> keeps_wiring (for_each f l).
Proof.
  intros Hf. induction l as [|x l IH]; simpl.
  - apply kw_ret.
  - apply kw_bind; [apply Hf | intros _; apply IH].
Qed.

Create HintDb wiring.
#[local] Hint Resolve kw_ret kw_throw kw_get_state kw_call kw_outbound kw_requests
  kw_Assert kw_Buffer : wiring.

Ltac wiring :=
  repeat match goal with
    | |- keeps_wiring (bind _ _) => apply kw_bind; [|intros ?]
    | |- keeps_wiring (try_catch _ _) => apply kw_try_catch; [|intros ?]
    | |- keeps_wiring (for_each _ _) => apply kw_for_each; intros ?
    | |- keeps_wiring (match ?x with _ => _ end) => destruct x
    | |- keeps_wiring _ => solve [auto with wiring]
    end.

Lemma kw_emitResponse socket id status payload :
  keeps_wiring (emitResponse socket id status payload).
Proof. unfold emitResponse. wiring. Qed.

Lemma kw_emitStream socket id payload : keeps_wiring (emitStream socket id payload).
Proof. unfold emitStream. wiring. Qed.

#[local] Hint Resolve kw_emitResponse kw_emitStream : wiring.

Lemma kw_onEnd r status payload : keeps_wiring (onEnd r status payload).
Proof. unfold onEnd. wiring. Qed.

Lemma kw_onStream r payload : keeps_wiring (onStream r payload).
Proof. unfold onStream. wiring. Qed.

#[local] Hint Resolve kw_onEnd kw_onStream : wiring.

Lemma kw_RpcRequest_end request payload status :
  keeps_wiring (RpcRequest_end request payload status).
Proof. unfold RpcRequest_end. wiring. Qed.

Lemma kw_RpcRequest_stream request payload :
  keeps_wiring (RpcRequest_stream request payload).
Proof. unfold RpcRequest_stream. wiring. Qed.

#[local] Hint Resolve kw_RpcRequest_end kw_RpcRequest_stream : wiring.

Lemma kw_run_step request s : keeps_wiring (run_step request s).
Proof. unfold run_step. wiring. Qed.

#[local] Hint Resolve kw_run_step : wiring.

Lemma kw_Router_route r name request : keeps_wiring (Router_route r name request).
Proof. unfold Router_route. wiring. Qed.

(** ** HTTP listener: the stream callback *)



(** ** Emission and outbound accounting *)

Lemma emitResponse_defined st srv socket id status payload s :
  server (adapter st) = Some srv ->
  Js.stringify payload = Some s ->
  emitResponse socket id status payload st
  = (Normal tt,
     set_adapter (with_outbound (Meter_add (Z.of_nat (String.length s))))
       (add_call (ServerEmit srv socket "message"
                    (Js.Obj [("id", Js.Num id); ("status", Js.Num status);
                             ("data", payload)]))
          st)).
Proof.
  intros Hsrv Hs. unfold emitResponse, bind, get_state. rewrite Hsrv.
  cbn [Assert_isNotNull ret]. unfold call, modify. rewrite Hs. reflexivity.
Qed.

Lemma emitStream_defined st srv socket id payload s :
  server (adapter st) = Some srv ->
  Js.stringify payload = Some s ->
  emitStream socket id payload st
  = (Normal tt,
     set_adapter (with_outbound (Meter_add (Z.of_nat (String.length s))))
       (add_call (ServerEmit srv socket "stream"
                    (Js.Obj [("id", Js.Num id); ("data", payload)]))
          st)).
Proof.
  intros Hsrv Hs. unfold emitStream, bind, get_state. rewrite Hsrv.
  cbn [Assert_isNotNull ret]. unfold call, modify. rewrite Hs. reflexivity.
Qed.

(** Whenever the payload serializes, the outbound meter grows by exactly
    the byte length of the payload alone. *)
Lemma emit_accounts_payload_bytes st srv socket id status payload s :
  server (adapter st) = Some srv ->
  Js.stringify payload = Some s ->
  bytes (outboundTraffic (adapter (emitResponse socket id status payload st).2))
  = bytes (outboundTraffic (adapter st)) + Z.of_nat (String.length s)
  /\ bytes (outboundTraffic (adapter (emitStream socket id payload st).2))
     = bytes (outboundTraffic (adapter st)) + Z.of_nat (String.length s).
Proof.
  intros Hsrv Hs.
  rewrite (emitResponse_defined st srv socket id status payload s Hsrv Hs).
  rewrite (emitStream_defined st srv socket id payload s Hsrv Hs). done.
Qed.

(** C6 (the code at the failing input): with an undefined payload both
    emitResponse and emitStream put the message on the wire and then throw
    the TypeError of [Buffer.from(undefined)]; the outbound meter is not
    incremented and the exception reaches the caller. *)
Theorem emit_undefined_data_throws (st : State) (srv socket : nat) (id status : Z) :
  server (adapter st) = Some srv ->
  emitResponse socket id status Js.Undefined st
  = (Thrown Buffer_from_TypeError,
     add_call (ServerEmit srv socket "message"
                 (Js.Obj [("id", Js.Num id); ("status", Js.Num status);
                          ("data", Js.Undefined)])) st)
  /\ emitStream socket id Js.Undefined st
     = (Thrown Buffer_from_TypeError,
        add_call (ServerEmit srv socket "stream"
                    (Js.Obj [("id", Js.Num id); ("data", Js.Undefined)])) st).
Proof.
  intros Hsrv. unfold emitResponse, emitStream, bind, get_state. rewrite Hsrv.
  split; reflexivity.
Qed.

Lemma emit_undefined_data_throws_witness :
  server (adapter ready_state) = Some 0%nat
  /\ (emitResponse 7 1 200 Js.Undefined ready_state
      = (Thrown Buffer_from_TypeError,
         add_call (ServerEmit 0 7 "message"
                     (Js.Obj [("id", Js.Num 1); ("status", Js.Num 200);
                              ("data", Js.Undefined)])) ready_state)
      /\ emitStream 7 1 Js.Undefined ready_state
         = (Thrown Buffer_from_TypeError,
            add_call (ServerEmit 0 7 "stream"
                        (Js.Obj [("id", Js.Num 1); ("data", Js.Undefined)])) ready_state)).
Proof.
  split; [reflexivity|].
  apply (emit_undefined_data_throws ready_state 0 7 1 200). reflexivity.
Defined.

(** ** Malformed requests *)

Lemma handleMalformedRequest_without_id stack st srv socket props :
  server (adapter st) = Some srv ->
  Js.get_prop "id" props = None ->
  handleMalformedRequest stack socket (Js.Obj props) st
  = (Normal tt,
     set_adapter (with_outbound (Meter_add (byteLength (malformed_error stack))))
       (add_call (ServerEmit srv socket "malformedRequest" (malformed_error stack)) st)).
Proof.
  intros Hs Hid. unfold handleMalformedRequest, bind at 1 2, get_state. rewrite Hs.
  cbn [Assert_isNotNull ret Js.typeof Js.has_prop]. rewrite Hid.
  rewrite bool_decide_eq_false_2 by (by intros [? ?]).
  cbn [String.eqb Ascii.eqb Bool.eqb andb negb].
  destruct (stringify_renderError (OtherError "Error" "Malformed request rejected" stack))
    as [s Hstr].
  unfold bind, call, modify, byteLength, malformed_error. rewrite Hstr. reflexivity.
Qed.

Lemma handleMalformedRequest_with_id stack st srv socket props id :
  server (adapter st) = Some srv ->
  Js.get_prop "id" props = Some (Js.Num id) ->
  handleMalformedRequest stack socket (Js.Obj props) st
  = emitResponse socket id 500 (malformed_error stack) st.
Proof.
  intros Hs Hid. unfold handleMalformedRequest, bind at 1 2, get_state. rewrite Hs.
  cbn [Assert_isNotNull ret Js.typeof Js.has_prop Js.prop]. rewrite Hid.
  rewrite bool_decide_eq_true_2 by eauto.
  reflexivity.
Qed.

(** C2 (the code at the failing input): a message that carries a numeric
    [mid] but no [type] fails validation, and the adapter answers it with
    the connection-scoped malformedRequest event only; no Response
    targeted at id 7 is emitted. *)
Theorem malformed_request_with_mid_only_is_not_targeted :
  let raw := Js.Obj [("mid", Js.Num 7)] in
  tryValidate raw = None
  /\ onMessage None 7 raw ready_state
     = (Normal tt,
        set_adapter (with_outbound (Meter_add (byteLength (malformed_error None))))
          (add_call (ServerEmit 0 7 "malformedRequest" (malformed_error None)) ready_state)).
Proof.
  split; [reflexivity|].
  rewrite <- (handleMalformedRequest_without_id None ready_state 0 7 [("mid", Js.Num 7)])
    by reflexivity.
  reflexivity.
Qed.

Example malformed_request_with_id_is_targeted :
  calls (state_after (onMessage None 7 (Js.Obj [("id", Js.Num 7)])) ready_state)
  = (calls ready_state
     ++ [ServerEmit 0 7 "message"
           (Js.Obj [("id", Js.Num 7); ("status", Js.Num 500);
                    ("data", malformed_error None)])])%list.
Proof. vm_compute. reflexivity. Qed.

(** ** Respond and the registry *)

(** C3 (as stated, refuted): after a valid request whose handler responds,
    the Response is on the wire and the context is closed, yet the context
    is still listed in the pending entry of its connection id. *)
Lemma respond_does_not_unregister_example :
  let st := state_after (onMessage None 7 (message 1 "chain/getInfo")) ready_state in
  is_closed st 4 = true
  /\ last (calls st)
     = Some (ServerEmit 0 7 "message"
               (Js.Obj [("id", Js.Num 1); ("status", Js.Num 200);
                        ("data", Js.Obj [("height", Js.Num 2)])]))
  /\ pending (adapter st) !! "client" = Some [4%nat]
  /\ ~ (4%nat ∉ default [] (pending (adapter st) !! "client")).
Proof.
  intros st.
  assert (pending (adapter st) !! "client" = Some [4%nat]) as Hp by (vm_compute; reflexivity).
  split_and!; [vm_compute; reflexivity | vm_compute; reflexivity | exact Hp |].
  rewrite Hp. simpl. intros Hn. apply Hn. apply list_elem_of_here.
Qed.

(** C3 (amended): running the respond operation of a request context
    leaves the [pending] map exactly as it was, so a context registered
    under its connection id is still present in that entry afterwards. *)
Theorem respond_keeps_context_registered (st : State) (request : nat) (payload : Js.value)
    (status : Z) (sid : string) (reqs : list nat) :
  pending (adapter st) !! sid = Some reqs ->
  request ∈ reqs ->
  pending (adapter (RpcRequest_end request payload status st).2) = pending (adapter st)
  /\ exists reqs',
       pending (adapter (RpcRequest_end request payload status st).2) !! sid = Some reqs'
       /\ request ∈ reqs'.
Proof.
  intros Hp Hin.
  destruct (kw_RpcRequest_end request payload status st) as [Heq _].
  split; [exact Heq|]. exists reqs. by rewrite Heq.
Qed.

Lemma respond_keeps_context_registered_witness :
  pending (adapter busy_state) !! "client" = Some [4%nat; 5%nat]
  /\ 4%nat ∈ [4%nat; 5%nat]
  /\ pending (adapter (RpcRequest_end 4 (Js.Num 1) 200 busy_state).2)
     = pending (adapter busy_state)
  /\ exists reqs',
       pending (adapter (RpcRequest_end 4 (Js.Num 1) 200 busy_state).2) !! "client"
       = Some reqs'
       /\ 4%nat ∈ reqs'.
Proof.
  split; [reflexivity|]. split; [apply list_elem_of_here|].
  apply (respond_keeps_context_registered busy_state 4 (Js.Num 1) 200 "client"
           [4%nat; 5%nat]).
  - reflexivity.
  - apply list_elem_of_here.
Defined.

(** ** Disconnect *)

Lemma close_all (reqs : list nat) (st : State) :
  exists st',
    for_each RpcRequest_close reqs st = (Normal tt, st')
    /\ adapter st' = adapter st
    /\ calls st' = calls st
    /\ socket_id st' = socket_id st
    /\ (forall r q, r ∈ reqs -> requests st !! r = Some q ->
          requests st' !! r = Some (mark_closed q))
    /\ (forall r, r ∉ reqs -> requests st' !! r = requests st !! r).
Proof.
  revert st. induction reqs as [|x reqs IH]; intros st.
  - exists st. split_and!; try done. intros r q Hr. by apply elem_of_nil in Hr.
  - cbn [for_each]. unfold bind.
    unfold RpcRequest_close at 1, modify.
    destruct (IH (set_requests (alter mark_closed x) st))
      as (st' & Hrun & Ha & Hc & Hs & Hin & Hout).
    rewrite Hrun. exists st'. split_and!; try done.
    + intros r q Hr Hq.
      destruct (decide (r ∈ reqs)) as [Hr'|Hr'].
      * destruct (decide (r = x)) as [->|Hne].
        -- rewrite (Hin x (mark_closed q) Hr'); [done|].
           simpl. rewrite lookup_alter_eq, Hq. done.
        -- apply Hin; [done|]. simpl. by rewrite lookup_alter_ne.
      * apply elem_of_cons in Hr as [->|Hr]; [|done].
        rewrite Hout by done. simpl. by rewrite lookup_alter_eq, Hq.
    + intros r Hr. apply not_elem_of_cons in Hr as [Hne Hr].
      rewrite Hout by done. simpl. by rewrite lookup_alter_ne.
Qed.

(** C4: when a socket whose connection id has pending request contexts
    disconnects, every one of those contexts is closed, the entry of the id
    is deleted from [pending] (so none stays registered under it), the
    entries of other ids are untouched and nothing is sent on the wire. *)
Theorem disconnect_closes_all_pending (st : State) (socket : nat) (sid : string)
    (reqs : list nat) :
  truthy_id (socket_id st !! socket) = Some sid ->
  pending (adapter st) !! sid = Some reqs ->
  exists st',
    on_socket_disconnected socket st = (Normal tt, st')
    /\ pending (adapter st') !! sid = None
    /\ (forall r q, r ∈ reqs -> requests st !! r = Some q ->
          requests st' !! r = Some (mark_closed q) /\ is_closed st' r = true)
    /\ (forall other, other <> sid ->
          pending (adapter st') !! other = pending (adapter st) !! other)
    /\ calls st' = calls st.
Proof.
  intros Hid Hp. unfold on_socket_disconnected, bind, get_state. rewrite Hid.
  unfold onDisconnect, bind, get_state. rewrite Hp.
  destruct (close_all reqs st) as (st1 & Hrun & Ha & Hc & _ & Hin & _).
  rewrite Hrun. eexists. split; [reflexivity|]. simpl. rewrite Ha. split_and!.
  - apply lookup_delete_eq.
  - intros r q Hr Hq. unfold is_closed. simpl. by rewrite (Hin r q Hr Hq).
  - intros other Hne. by apply lookup_delete_ne.
  - done.
Qed.

Lemma disconnect_closes_all_pending_witness :
  truthy_id (socket_id busy_state !! 7%nat) = Some "client"
  /\ pending (adapter busy_state) !! "client" = Some [4%nat; 5%nat]
  /\ exists st',
      on_socket_disconnected 7 busy_state = (Normal tt, st')
      /\ pending (adapter st') !! "client" = None
      /\ (forall r q, r ∈ [4%nat; 5%nat] -> requests busy_state !! r = Some q ->
            requests st' !! r = Some (mark_closed q) /\ is_closed st' r = true)
      /\ (forall other, other <> "client" ->
            pending (adapter st') !! other = pending (adapter busy_state) !! other)
      /\ calls st' = calls busy_state.
Proof.
  split; [reflexivity|]. split; [reflexivity|].
  apply (disconnect_closes_all_pending busy_state 7 "client" [4%nat; 5%nat]); reflexivity.
Defined.

Example disconnect_after_two_requests :
  let st := state_after (on_socket_disconnected 7) busy_state in
  pending (adapter st) = ∅ /\ is_closed st 4 = true /\ is_closed st 5 = true
  /\ is_closed busy_state 4 = false /\ is_closed busy_state 5 = false.
Proof. vm_compute. done. Qed.

(** ** Route failures on the local-socket/TCP channel *)

Lemma tryValidate_object (raw : Js.value) (message : IpcRequest) :
  tryValidate raw = Some message -> exists props, raw = Js.Obj props.
Proof. destruct raw; simpl; try discriminate. eauto. Qed.

Lemma onMessage_valid stack st socket sid raw message r srv :
  truthy_id (socket_id st !! socket) = Some sid ->
  tryValidate raw = Some message ->
  router (adapter st) = Some r ->
  server (adapter st) = Some srv ->
  onMessage stack socket raw st
  = onMessage_route socket message r (next_object st) (dispatched st socket sid raw message).
Proof.
  intros Hid Hv Hr Hs.
  destruct (tryValidate_object raw message Hv) as [props ->].
  unfold onMessage, bind at 1, get_state. rewrite Hid, Hv.
  unfold bind, Buffer_byteLength, modify, new_request, new_object, ret; simpl.
  rewrite Hr, Hs. simpl. reflexivity.
Qed.

Lemma onMessage_route_failure st st1 srv socket message r request e :
  server (adapter st) = Some srv ->
  Router_route r (type message) request st = (Thrown e, st1) ->
  onMessage_route socket message r request st
  = match e with
    | ResponseError status _ _ _ =>
        (Normal tt,
         set_adapter (with_outbound (Meter_add (byteLength (renderError e))))
           (add_call (ServerEmit srv socket "message"
                        (Js.Obj [("id", Js.Num (mid message)); ("status", Js.Num status);
                                 ("data", renderError e)])) st1))
    | OtherError _ _ _ => (Thrown e, st1)
    end.
Proof.
  intros Hs Hroute. unfold onMessage_route, try_catch. rewrite Hroute.
  destruct e as [status code msg stack|name msg stack]; [|done].
  destruct (kw_Router_route r (type message) request st) as [_ Hsrv].
  rewrite Hroute in Hsrv. simpl in Hsrv. rewrite Hs in Hsrv.
  destruct (stringify_renderError (ResponseError status code msg stack)) as [s Hstr].
  rewrite (emitResponse_defined st1 srv socket _ _ _ s Hsrv Hstr).
  unfold byteLength. by rewrite Hstr.
Qed.

(** C5: for a valid message on a connected socket, when the route
    invocation fails with a ResponseError the adapter completes normally
    after emitting a Response that echoes the message id, carries the
    error's status and has the rendered error as data, whose code is the
    error's own code; when it fails with any other error, that error is
    re-thrown and nothing is emitted for it, and rendering such an error
    gives the code ERROR. *)
Theorem route_failure_handling stack (st st1 : State) (socket : nat) (sid : string)
    (raw : Js.value) (message : IpcRequest) (r : Router) (srv : nat) (e : Error) :
  truthy_id (socket_id st !! socket) = Some sid ->
  tryValidate raw = Some message ->
  router (adapter st) = Some r ->
  server (adapter st) = Some srv ->
  Router_route r (type message) (next_object st) (dispatched st socket sid raw message)
  = (Thrown e, st1) ->
  match e with
  | ResponseError status code _ _ =>
      onMessage stack socket raw st
      = (Normal tt,
         set_adapter (with_outbound (Meter_add (byteLength (renderError e))))
           (add_call (ServerEmit srv socket "message"
                        (Js.Obj [("id", Js.Num (mid message)); ("status", Js.Num status);
                                 ("data", renderError e)])) st1))
      /\ Js.prop "code" (renderError e) = Js.Str code
  | OtherError _ _ _ =>
      onMessage stack socket raw st = (Thrown e, st1)
      /\ Js.prop "code" (renderError e) = Js.Str "ERROR"
  end.
Proof.
  intros Hid Hv Hr Hs Hroute.
  rewrite (onMessage_valid stack st socket sid raw message r srv Hid Hv Hr Hs).
  assert (server (adapter (dispatched st socket sid raw message)) = Some srv) as Hs'
    by exact Hs.
  rewrite (onMessage_route_failure _ st1 srv socket message r _ e Hs' Hroute).
  destruct e; split; reflexivity.
Qed.

Lemma route_failure_handling_witness :
  truthy_id (socket_id ready_state !! 7%nat) = Some "client"
  /\ tryValidate (message 3 "wallet/create") = Some create_message
  /\ router (adapter ready_state) = Some demo_router
  /\ server (adapter ready_state) = Some 0%nat
  /\ Router_route demo_router (type create_message) (next_object ready_state)
       (dispatched ready_state 7 "client" (message 3 "wallet/create") create_message)
     = (Thrown account_exists, create_failed)
  /\ onMessage None 7 (message 3 "wallet/create") ready_state
     = (Normal tt,
        set_adapter (with_outbound (Meter_add (byteLength (renderError account_exists))))
          (add_call (ServerEmit 0 7 "message"
                       (Js.Obj [("id", Js.Num 3); ("status", Js.Num 400);
                                ("data", renderError account_exists)])) create_failed))
  /\ Js.prop "code" (renderError account_exists) = Js.Str "account-exists".
Proof.
  assert (Router_route demo_router (type create_message) (next_object ready_state)
            (dispatched ready_state 7 "client" (message 3 "wallet/create") create_message)
          = (Thrown account_exists, create_failed)) as Hroute by (vm_compute; reflexivity).
  destruct (route_failure_handling None ready_state create_failed 7 "client"
              (message 3 "wallet/create") create_message demo_router 0 account_exists
              eq_refl eq_refl eq_refl eq_refl Hroute) as [Hrun Hcode].
  split_and!;
    [reflexivity | reflexivity | reflexivity | reflexivity | exact Hroute
    | exact Hrun | exact Hcode].
Defined.

Example unstructured_route_failure_is_rethrown :
  let r := onMessage None 7 (message 4 "wallet/unknown") ready_state in
  r.1 = Thrown (OtherError "Error" "boom" None)
  /\ calls r.2 = (calls ready_state ++ [RouterRoute "wallet/unknown" 4])%list
  /\ on_message None (message 4 "wallet/unknown") 7 ready_state = (Normal tt, r.2).
Proof. vm_compute. done. Qed.

(** ** WebSocket listener *)

(** C8: a WebSocket connection whose route name does not end in Stream is
    closed at once: the only call made is the close of the socket, so the
    router is not invoked, no request context is made and nothing is
    sent. *)
Theorem ws_rejects_route_without_stream_suffix (st : State) (wsClient : nat)
    (request : IncomingMessage) :
  Js.endsWith (Js.substring1 (pathname request)) "Stream" = false ->
  ws_connection_listener wsClient request st = (Normal tt, add_call (WsClose wsClient) st).
Proof. intros H. unfold ws_connection_listener. by rewrite H. Qed.

Lemma ws_rejects_route_without_stream_suffix_witness :
  Js.endsWith (Js.substring1 (pathname get_chain_info)) "Stream" = false
  /\ ws_connection_listener 3 get_chain_info ready_state
     = (Normal tt, add_call (WsClose 3) ready_state).
Proof.
  split; [reflexivity|].
  apply (ws_rejects_route_without_stream_suffix ready_state 3 get_chain_info). reflexivity.
Defined.

(** ** Lifecycle and guards *)

(** C9: on an adapter that is already started, start returns at once and
    the whole state is unchanged: no object is created, no call is made on
    a server, the meters and every adapter field keep their values. *)
Theorem start_when_started_is_noop (st : State) :
  started (adapter st) = true -> start st = (Normal tt, st).
Proof. intros H. unfold start, bind, get_state. by rewrite H. Qed.

Lemma start_when_started_is_noop_witness :
  started (adapter ready_state) = true /\ start ready_state = (Normal tt, ready_state).
Proof.
  split; [reflexivity|]. apply (start_when_started_is_noop ready_state). reflexivity.
Defined.

Example start_brings_up_listeners :
  let st := state_after start (initial_state (ModeTcp "localhost" 8020)) in
  calls st = [IpcServeNet "localhost" 8020; HttpListen 1 8021 "localhost"; IpcServerStart 0]
  /\ started (adapter st) = true
  /\ running (inboundTraffic (adapter st)) = true
  /\ running (outboundTraffic (adapter st)) = true.
Proof. vm_compute. done. Qed.

(** C10: a message arriving on a socket that has no connection id is
    dropped: onMessage returns normally with the state unchanged, so
    nothing is emitted, neither meter moves and [pending] is as before,
    whatever the message is (valid or not). *)
Theorem onMessage_without_socket_id stack (st : State) (socket : nat) (raw : Js.value) :
  truthy_id (socket_id st !! socket) = None ->
  onMessage stack socket raw st = (Normal tt, st).
Proof. intros H. unfold onMessage, bind, get_state. by rewrite H. Qed.

Lemma onMessage_without_socket_id_witness :
  truthy_id (socket_id ready_state !! 8%nat) = None
  /\ onMessage None 8 (message 1 "chain/getInfo") ready_state = (Normal tt, ready_state).
Proof.
  split; [reflexivity|].
  apply (onMessage_without_socket_id None ready_state 8). reflexivity.
Defined.

(** ** Block chunk codec *)

Module BlockFacts.

Import Block.
Local Open Scope N_scope.

Lemma to_N_byte_of_N n : Byte.to_N (byte_of_N n) = n mod 256.
Proof.
  unfold byte_of_N.
  destruct (Byte.of_N (n mod 256)) as [b|] eqn:E; simpl.
  - by apply Byte.to_of_N.
  - apply Byte.of_N_None_iff in E.
    pose proof (N.mod_upper_bound n 256). lia.
Qed.

Lemma length_write_le w n : length (write_le w n) = w.
Proof. revert n. induction w as [|w IH]; intros n; simpl; [done | by rewrite IH]. Qed.

Lemma read_write_le w n rest :
  read_le w (write_le w n ++ rest) = Some (n mod 256 ^ N.of_nat w, rest).
Proof.
  revert n. induction w as [|w IH]; intros n.
  - simpl. by rewrite N.mod_1_r.
  - cbn [write_le read_le app]. rewrite IH, to_N_byte_of_N.
    do 2 f_equal.
    rewrite Nat2N.inj_succ, N.pow_succ_r'.
    rewrite N.Div0.mod_mul_r. lia.
Qed.

Lemma readVarint_writeVarint n rest :
  n < 2 ^ 64 -> readVarint (writeVarint n ++ rest) = Some (n, rest).
Proof.
  intros Hn. unfold writeVarint.
  destruct (n <? 253) eqn:H1.
  - apply N.ltb_lt in H1. cbn [app readVarint].
    rewrite to_N_byte_of_N, (N.mod_small n 256) by lia.
    rewrite !(proj2 (N.eqb_neq _ _)) by lia. done.
  - apply N.ltb_ge in H1.
    destruct (n <=? 65535) eqn:H2; [|destruct (n <=? 4294967295) eqn:H3].
    + apply N.leb_le in H2. cbn [app readVarint].
      change (Byte.to_N xfd) with 253. cbn [N.eqb Pos.eqb].
      rewrite read_write_le. rewrite N.mod_small; [done|]. simpl. lia.
    + apply N.leb_le in H3. cbn [app readVarint].
      change (Byte.to_N xfe) with 254. cbn [N.eqb Pos.eqb].
      rewrite read_write_le. rewrite N.mod_small; [done|]. simpl. lia.
    + cbn [app readVarint].
      change (Byte.to_N xff) with 255. cbn [N.eqb Pos.eqb].
      rewrite read_write_le. rewrite N.mod_small; [done|]. simpl. lia.
Qed.

Lemma length_writeVarint n : length (writeVarint n) = sizeVarint n.
Proof.
  unfold writeVarint, sizeVarint.
  repeat case_match; simpl; by rewrite ?length_write_le.
Qed.

Lemma readBytes_app (a rest : list byte) :
  readBytes (length a) (a ++ rest) = Some (a, rest).
Proof.
  unfold readBytes. rewrite length_app.
  rewrite (proj2 (Nat.leb_le _ _)) by lia.
  by rewrite take_app_length, drop_app_length.
Qed.

Lemma readVarBytes_writeVarBytes (tx rest : list byte) :
  N.of_nat (length tx) < 2 ^ 64 ->
  readVarBytes (writeVarBytes tx ++ rest) = Some (tx, rest).
Proof.
  intros H. unfold readVarBytes, writeVarBytes.
  rewrite <- app_assoc, readVarint_writeVarint by done.
  rewrite Nat2N.id. apply readBytes_app.
Qed.

Lemma readTransactions_write (txs : list (list byte)) rest :
  Forall (fun tx => N.of_nat (length tx) < 2 ^ 64) txs ->
  readTransactions (length txs) (concat (map writeVarBytes txs) ++ rest) = Some (txs, rest).
Proof.
  induction 1 as [|tx txs Htx _ IH]; [done|].
  cbn [length map concat readTransactions].
  rewrite <- app_assoc, readVarBytes_writeVarBytes by done.
  by rewrite IH.
Qed.

Lemma length_transactions_written (txs : list (list byte)) :
  length (concat (map writeVarBytes txs))
  = foldr (fun tx acc => sizeVarint (N.of_nat (length tx)) + length tx + acc)%nat 0%nat txs.
Proof.
  induction txs as [|tx txs IH]; [done|].
  cbn [map concat foldr]. rewrite length_app, IH. unfold writeVarBytes.
  rewrite length_app, length_writeVarint. lia.
Qed.

(** C7: for a block whose header has the fixed header size (and whose
    transaction count and lengths fit the 8-byte varint), reading back what
    the encoder wrote gives the same header bytes and the same transaction
    bytes and leaves exactly what followed the encoding, and the encoder
    writes exactly getBlockSize bytes. *)
Theorem block_round_trip (header_size : nat) (block : SerializedBlock) (rest : list byte) :
  length (header block) = header_size ->
  N.of_nat (length (transactions block)) < 2 ^ 64 ->
  Forall (fun tx => N.of_nat (length tx) < 2 ^ 64) (transactions block) ->
  readBlock header_size (writeBlock block ++ rest) = Some (block, rest)
  /\ length (writeBlock block) = getBlockSize header_size block.
Proof.
  intros Hh Hc Htx. destruct block as [h txs]; simpl in *. split.
  - unfold readBlock, writeBlock; simpl. subst header_size.
    rewrite <- !app_assoc, readBytes_app.
    rewrite readVarint_writeVarint by done.
    rewrite Nat2N.id, readTransactions_write by done. done.
  - unfold writeBlock, getBlockSize; simpl.
    rewrite !length_app, length_writeVarint, length_transactions_written. lia.
Qed.

Lemma block_round_trip_witness :
  length (header sample_block) = 3%nat
  /\ N.of_nat (length (transactions sample_block)) < 2 ^ 64
  /\ Forall (fun tx => N.of_nat (length tx) < 2 ^ 64) (transactions sample_block)
  /\ readBlock 3 (writeBlock sample_block ++ [x2a]) = Some (sample_block, [x2a])
  /\ length (writeBlock sample_block) = getBlockSize 3 sample_block.
Proof.
  assert (Forall (fun tx => N.of_nat (length tx) < 2 ^ 64) (transactions sample_block))
    as Htx by (repeat constructor).
  split; [reflexivity|]. split; [reflexivity|]. split; [exact Htx|].
  apply (block_round_trip 3 sample_block [x2a]); [reflexivity | reflexivity | exact Htx].
Defined.

Example writeBlock_sample :
  writeBlock sample_block = [x01; x02; x03; x03; x02; xaa; xbb; x00; x01; xff]
  /\ getBlockSize 3 sample_block = 10%nat.
Proof. split; reflexivity. Qed.

Example writeVarint_wide :
  writeVarint 300 = [xfd; x2c; x01] /\ readVarint [xfd; x2c; x01; x07] = Some (300, [x07]).
Proof. split; reflexivity. Qed.

End BlockFacts.

(** * Further properties of the adapter *)

(** ** Frames for a preorder on states *)

Section Preserves.

Variable R : State -> State -> Prop.
Hypothesis R_refl : forall st, R st st.
Hypothesis R_trans : forall a b c, R a b -> R b c -> R a c.

Lemma pr_ret {A} (a : A) : preserves R (ret a).
Proof. intros st. apply R_refl. Qed.

Lemma pr_throw {A} (e : Error) : preserves R (@throw A e).
Proof. intros st. apply R_refl. Qed.

Lemma pr_get_state : preserves R get_state.
Proof. intros st. apply R_refl. Qed.

Lemma pr_bind {A B} (m : M A) (k : A -> M B) :
  preserves R m -> (forall a, preserves R (k a)) -> preserves R (bind m k).
Proof.
  intros Hm Hk st. unfold bind. specialize (Hm st).
  destruct (m st) as [[a|e] st1]; simpl in *; [|done].
  eapply R_trans; [exact Hm | apply Hk].
Qed.

Lemma pr_try_catch {A} (m : M A) (h : Error -> M A) :
  preserves R m -> (forall e, preserves R (h e)) -> preserves R (try_catch m h).
Proof.
  intros Hm Hh st. unfold try_catch. specialize (Hm st).
  destruct (m st) as [[a|e] st1]; simpl in *; [done|].
  eapply R_trans; [exact Hm | apply Hh].
Qed.

Lemma pr_try_finally {A} (m : M A) (f : M unit) :
  preserves R m -> preserves R f -> preserves R (try_finally m f).
Proof.
  intros Hm Hf st. unfold try_finally. specialize (Hm st).
  destruct (m st) as [c st1]; simpl in *. specialize (Hf st1).
  destruct (f st1) as [[[]|e] st2]; simpl in *; eapply R_trans; eauto.
Qed.

Lemma pr_for_each {A} (f : A -> M unit) (l : list A) :
  (forall x, preserves R (f x)) -> preserves R (for_each f l).
Proof.
  intros Hf. induction l as [|x l IH]; simpl.
  - apply pr_ret.
  - apply pr_bind; [apply Hf | intros _; apply IH].
Qed.

Lemma pr_Assert {A} (x : option A) : preserves R (Assert_isNotNull x).
Proof. destruct x; [apply pr_ret | apply pr_throw]. Qed.

Lemma pr_Buffer (s : option string) : preserves R (Buffer_byteLength s).
Proof. destruct s; [apply pr_ret | apply pr_throw]. Qed.

End Preserves.

Ltac frame_with refl trans prims :=
  repeat match goal with
    | |- preserves _ (bind _ _) => apply (pr_bind _ trans); [|intros ?]
    | |- preserves _ (try_catch _ _) => apply (pr_try_catch _ trans); [|intros ?]
    | |- preserves _ (try_finally _ _) => apply (pr_try_finally _ trans)
    | |- preserves _ (for_each _ _) => apply (pr_for_each _ refl trans); intros ?
    | |- preserves _ (ret _) => apply (pr_ret _ refl)
    | |- preserves _ (throw _) => apply (pr_throw _ refl)
    | |- preserves _ get_state => apply (pr_get_state _ refl)
    | |- preserves _ (Assert_isNotNull _) => apply (pr_Assert _ refl)
    | |- preserves _ (Buffer_byteLength _) => apply (pr_Buffer _ refl)
    | |- preserves _ (match ?x with _ => _ end) => destruct x
    | |- preserves _ _ => solve [prims]
    end.

(** ** The adapter apart from the outbound meter *)
Lemma sbo_refl st : same_but_outbound st st.
Proof. done. Qed.

Lemma sbo_trans a b c : same_but_outbound a b -> same_but_outbound b c -> same_but_outbound a c.
Proof. unfold same_but_outbound. congruence. Qed.

Lemma sbo_call c : preserves same_but_outbound (call c).
Proof. by intros st. Qed.

Lemma sbo_outbound f : preserves same_but_outbound (modify (set_adapter (with_outbound f))).
Proof. by intros st. Qed.

Lemma sbo_requests f : preserves same_but_outbound (modify (set_requests f)).
Proof. by intros st. Qed.

Create HintDb outbound_frame.
#[local] Hint Resolve sbo_call sbo_outbound sbo_requests : outbound_frame.

Ltac sbo := frame_with sbo_refl sbo_trans ltac:(auto with outbound_frame).

Lemma sbo_emitResponse socket id status payload :
  preserves same_but_outbound (emitResponse socket id status payload).
Proof. unfold emitResponse. sbo. Qed.

Lemma sbo_emitStream socket id payload :
  preserves same_but_outbound (emitStream socket id payload).
Proof. unfold emitStream. sbo. Qed.

#[local] Hint Resolve sbo_emitResponse sbo_emitStream : outbound_frame.

Lemma sbo_handleMalformedRequest stack socket raw :
  preserves same_but_outbound (handleMalformedRequest stack socket raw).
Proof. unfold handleMalformedRequest. sbo. Qed.

Lemma sbo_RpcRequest_end request payload status :
  preserves same_but_outbound (RpcRequest_end request payload status).
Proof. unfold RpcRequest_end, onEnd. sbo. Qed.

Lemma sbo_RpcRequest_stream request payload :
  preserves same_but_outbound (RpcRequest_stream request payload).
Proof. unfold RpcRequest_stream, onStream. sbo. Qed.

#[local] Hint Resolve sbo_RpcRequest_end sbo_RpcRequest_stream : outbound_frame.

Lemma sbo_Router_route r name request :
  preserves same_but_outbound (Router_route r name request).
Proof. unfold Router_route, run_step. sbo. Qed.

#[local] Hint Resolve sbo_Router_route : outbound_frame.

Lemma sbo_onMessage_route socket message r request :
  preserves same_but_outbound (onMessage_route socket message r request).
Proof. unfold onMessage_route. sbo. Qed.

Lemma sbo_fields st st' :
  same_but_outbound st st' ->
  pending (adapter st') = pending (adapter st)
  /\ inboundTraffic (adapter st') = inboundTraffic (adapter st)
  /\ server (adapter st') = server (adapter st)
  /\ router (adapter st') = router (adapter st)
  /\ started (adapter st') = started (adapter st).
Proof.
  intros H. unfold same_but_outbound in H.
  split_and!.
  - exact (f_equal pending H).
  - exact (f_equal inboundTraffic H).
  - exact (f_equal server H).
  - exact (f_equal router H).
  - exact (f_equal started H).
Qed.

(** X1: a valid message on a connected socket, with router and server
    bound, appends exactly one new request context to the end of the
    pending list of that connection and adds the byte length of the
    serialized message to the inbound meter, whatever the handler does
    (returns, responds, streams or throws). *)
Theorem valid_message_registers_one_context stack (st : State) (socket : nat) (sid : string)
    (raw : Js.value) (message : IpcRequest) (r : Router) (srv : nat) :
  truthy_id (socket_id st !! socket) = Some sid ->
  tryValidate raw = Some message ->
  router (adapter st) = Some r ->
  server (adapter st) = Some srv ->
  let st' := (onMessage stack socket raw st).2 in
  pending (adapter st')
  = <[sid := (default [] (pending (adapter st) !! sid) ++ [next_object st])%list]>
      (pending (adapter st))
  /\ inboundTraffic (adapter st')
     = Meter_add (byteLength raw) (inboundTraffic (adapter st)).
Proof.
  intros Hid Hv Hr Hs st'. subst st'.
  rewrite (onMessage_valid stack st socket sid raw message r srv Hid Hv Hr Hs).
  destruct (sbo_fields _ _ (sbo_onMessage_route socket message r (next_object st)
                              (dispatched st socket sid raw message)))
    as (Hp & Hi & _).
  rewrite Hp, Hi. done.
Qed.

(** ** Malformed messages, in general *)

Lemma malformed_cases stack st srv socket raw :
  server (adapter st) = Some srv ->
  handleMalformedRequest stack socket raw st
  = (Normal tt,
     set_adapter (with_outbound (Meter_add (byteLength (malformed_error stack))))
       (add_call
          match Js.prop "id" raw with
          | Js.Num id =>
              ServerEmit srv socket "message"
                (Js.Obj [("id", Js.Num id); ("status", Js.Num 500);
                         ("data", malformed_error stack)])
          | _ => ServerEmit srv socket "malformedRequest" (malformed_error stack)
          end st)).
Proof.
  intros Hs.
  destruct (stringify_renderError (OtherError "Error" "Malformed request rejected" stack))
    as [s Hstr].
  assert (forall raw',
            (String.eqb (Js.typeof raw') "object"
             && negb (match raw' with Js.Null => true | _ => false end)
             && Js.has_prop "id" raw'
             && String.eqb (Js.typeof (Js.prop "id" raw')) "number") = false ->
            handleMalformedRequest stack socket raw' st
            = (Normal tt,
               set_adapter (with_outbound (Meter_add (byteLength (malformed_error stack))))
                 (add_call (ServerEmit srv socket "malformedRequest" (malformed_error stack))
                    st))) as Helse.
  { intros raw' Hc. unfold handleMalformedRequest, bind at 1 2, get_state. rewrite Hs.
    cbn [Assert_isNotNull ret]. rewrite Hc.
    unfold bind, call, modify, byteLength, malformed_error. rewrite Hstr. reflexivity. }
  destruct raw as [| | b | n | s0 | items | props]; try (by apply Helse).
  cbn [Js.prop]. destruct (Js.get_prop "id" props) as [v|] eqn:Hp; cbn [default].
  - destruct v as [| | b | id | s0 | items | props'];
      try (apply Helse; cbn [Js.typeof Js.has_prop Js.prop]; rewrite Hp;
           cbn; by rewrite ?andb_false_r).
    rewrite (handleMalformedRequest_with_id stack st srv socket props id Hs Hp).
    rewrite (emitResponse_defined st srv socket id 500 (malformed_error stack) s Hs Hstr).
    unfold byteLength, malformed_error. by rewrite Hstr.
  - apply Helse. cbn [Js.typeof Js.has_prop]. rewrite Hp.
    rewrite bool_decide_eq_false_2 by (by intros [? ?]). done.
Qed.

(** X3: a message that fails validation never throws and never reaches
    the router: exactly one event is emitted, which is a status-500
    Response carrying the message's [id] when the message is an object with
    a numeric [id] and the connection-scoped malformedRequest event in
    every other case; the outbound meter grows by the byte length of the
    rendered error, and the inbound meter and [pending] are untouched. *)
Theorem malformed_message_is_answered stack (st : State) (socket : nat) (sid : string)
    (raw : Js.value) (srv : nat) :
  truthy_id (socket_id st !! socket) = Some sid ->
  tryValidate raw = None ->
  server (adapter st) = Some srv ->
  onMessage stack socket raw st
  = (Normal tt,
     set_adapter (with_outbound (Meter_add (byteLength (malformed_error stack))))
       (add_call
          match Js.prop "id" raw with
          | Js.Num id =>
              ServerEmit srv socket "message"
                (Js.Obj [("id", Js.Num id); ("status", Js.Num 500);
                         ("data", malformed_error stack)])
          | _ => ServerEmit srv socket "malformedRequest" (malformed_error stack)
          end st)).
Proof.
  intros Hid Hv Hs.
  rewrite <- (malformed_cases stack st srv socket raw Hs).
  unfold onMessage, bind, get_state. by rewrite Hid, Hv.
Qed.

(** ** Correlation of emitted messages *)
Lemma corr_refl srv socket id request st : correlated srv socket id request st st.
Proof. intros H. split; [done|]. exists []. by rewrite app_nil_r. Qed.

Lemma corr_trans srv socket id request a b c :
  correlated srv socket id request a b -> correlated srv socket id request b c ->
  correlated srv socket id request a c.
Proof.
  intros Hab Hbc Ha. destruct (Hab Ha) as (Hb & n1 & E1 & F1).
  destruct (Hbc Hb) as (Hc & n2 & E2 & F2). split; [done|].
  exists (n1 ++ n2)%list. split; [by rewrite E2, E1, app_assoc | by apply Forall_app].
Qed.

Lemma corr_one_call srv socket id request c st st' :
  answers_on srv socket id c ->
  calls st' = (calls st ++ [c])%list ->
  (bound_context srv socket id request st -> bound_context srv socket id request st') ->
  correlated srv socket id request st st'.
Proof.
  intros Hc Hcalls Hb Hst. split; [by apply Hb|].
  exists [c]. split; [done|]. by constructor.
Qed.

Lemma corr_intro srv socket id request st st' :
  (bound_context srv socket id request st -> correlated srv socket id request st st') ->
  correlated srv socket id request st st'.
Proof. intros H Hb. exact (H Hb Hb). Qed.

Lemma corr_route_call srv socket id request name request' :
  preserves (correlated srv socket id request) (call (RouterRoute name request')).
Proof.
  intros st. eapply corr_one_call; cycle 1;
    [reflexivity | done | left; do 2 eexists; reflexivity].
Qed.

Lemma corr_emitResponse srv socket id request status payload :
  preserves (correlated srv socket id request) (emitResponse socket id status payload).
Proof.
  intros st. apply corr_intro. intros [Hsrv _].
  unfold emitResponse, bind, get_state. rewrite Hsrv. cbn [Assert_isNotNull ret call modify].
  destruct (Js.stringify payload); cbn [Buffer_byteLength ret throw snd modify];
    (eapply corr_one_call; cycle 1;
     [reflexivity | done | right; do 2 eexists; split; reflexivity]).
Qed.

Lemma corr_emitStream srv socket id request payload :
  preserves (correlated srv socket id request) (emitStream socket id payload).
Proof.
  intros st. apply corr_intro. intros [Hsrv _].
  unfold emitStream, bind, get_state. rewrite Hsrv. cbn [Assert_isNotNull ret call modify].
  destruct (Js.stringify payload); cbn [Buffer_byteLength ret throw snd modify];
    (eapply corr_one_call; cycle 1;
     [reflexivity | done | right; do 2 eexists; split; reflexivity]).
Qed.

Lemma bound_context_mark_closed srv socket id request r st :
  bound_context srv socket id request st ->
  bound_context srv socket id request (set_requests (alter mark_closed r) st).
Proof.
  intros [Hsrv (q & Hq & Hr)]. split; [done|]. simpl.
  destruct (decide (r = request)) as [->|Hne].
  - exists (mark_closed q). by rewrite lookup_alter_eq, Hq.
  - exists q. by rewrite lookup_alter_ne.
Qed.

Lemma corr_RpcRequest_end srv socket id request payload status :
  preserves (correlated srv socket id request) (RpcRequest_end request payload status).
Proof.
  intros st. apply corr_intro. intros [_ (q & Hq & Hr)].
  unfold RpcRequest_end, bind at 1, get_state. rewrite Hq.
  destruct (req_closed q); [apply corr_refl|].
  unfold bind, modify. rewrite Hr. cbn [onEnd].
  eapply corr_trans; [|apply corr_emitResponse].
  intros Hst. split; [by apply bound_context_mark_closed|].
  exists []. by rewrite app_nil_r.
Qed.

Lemma corr_RpcRequest_stream srv socket id request payload :
  preserves (correlated srv socket id request) (RpcRequest_stream request payload).
Proof.
  intros st. apply corr_intro. intros [_ (q & Hq & Hr)].
  unfold RpcRequest_stream, bind at 1, get_state. rewrite Hq.
  destruct (req_closed q); [apply corr_refl|].
  rewrite Hr. cbn [onStream]. apply corr_emitStream.
Qed.

Create HintDb correlation.
#[local] Hint Resolve corr_route_call corr_emitResponse corr_emitStream
  corr_RpcRequest_end corr_RpcRequest_stream : correlation.

Ltac corr :=
  match goal with
  | |- preserves (correlated ?a ?b ?c ?d) _ =>
      frame_with (corr_refl a b c d) (corr_trans a b c d) ltac:(auto with correlation)
  end.

Lemma corr_Router_route srv socket id request r name :
  preserves (correlated srv socket id request) (Router_route r name request).
Proof. unfold Router_route, run_step. corr. Qed.

#[local] Hint Resolve corr_Router_route : correlation.

Lemma corr_onMessage_route srv socket message r request :
  preserves (correlated srv socket (mid message) request)
    (onMessage_route socket message r request).
Proof. unfold onMessage_route. corr. Qed.

(** X2: every call made while a valid message is handled is either the
    route invocation or an emission on the socket the message came from
    whose payload carries the message's [mid] as [id]; nothing goes to
    another socket, an HTTP response or a WebSocket client. *)
Theorem message_traffic_is_correlated stack (st : State) (socket : nat) (sid : string)
    (raw : Js.value) (message : IpcRequest) (r : Router) (srv : nat) :
  truthy_id (socket_id st !! socket) = Some sid ->
  tryValidate raw = Some message ->
  router (adapter st) = Some r ->
  server (adapter st) = Some srv ->
  exists new,
    calls (onMessage stack socket raw st).2 = (calls st ++ new)%list
    /\ Forall (answers_on srv socket (mid message)) new.
Proof.
  intros Hid Hv Hr Hs.
  rewrite (onMessage_valid stack st socket sid raw message r srv Hid Hv Hr Hs).
  destruct (corr_onMessage_route srv socket message r (next_object st)
              (dispatched st socket sid raw message)) as (_ & new & Hc & Hf).
  - split; [exact Hs|]. eexists. split; [apply lookup_insert_eq | reflexivity].
  - exists new. split; [exact Hc | exact Hf].
Qed.

(** ** HTTP and WebSocket listeners past body parsing and the route guard *)


(** X20: a WebSocket connection whose route name ends in Stream makes the
    listener throw at [new Request] (line 232): the router is not invoked,
    nothing is sent and the socket is not closed. *)
Theorem ws_stream_route_throws_before_routing (st : State) (wsClient : nat)
    (request : IncomingMessage) :
  Js.endsWith (Js.substring1 (pathname request)) "Stream" = true ->
  ws_connection_listener wsClient request st = (Thrown Request_unbound, st).
Proof. intros H. unfold ws_connection_listener. rewrite H. reflexivity. Qed.

(** X14: when the body of a POST or PUT does not parse as JSON, the HTTP
    listener throws before anything else happens: no context is made,
    nothing is written and the response is not ended. *)
Theorem http_invalid_body_leaves_response_open stack (st : State)
    (request : IncomingMessage) (response : nat) :
  http_params request = None ->
  exists e, http_request_listener stack request response st = (Thrown e, st).
Proof.
  unfold http_params, http_request_listener. intros Hp.
  destruct (String.eqb (method request) "POST" || String.eqb (method request) "PUT");
    [|discriminate].
  destruct (parsed_body request); [discriminate|].
  eexists. reflexivity.
Qed.

(** X4: a valid message that arrives while no router is attached or no
    server is bound makes [onMessage] throw after the inbound meter was
    already incremented; no context is created or registered and nothing
    is emitted. *)
Theorem valid_message_before_wiring stack (st : State) (socket : nat) (sid : string)
    (raw : Js.value) (message : IpcRequest) :
  truthy_id (socket_id st !! socket) = Some sid ->
  tryValidate raw = Some message ->
  router (adapter st) = None \/ server (adapter st) = None ->
  exists e,
    onMessage stack socket raw st
    = (Thrown e, set_adapter (with_inbound (Meter_add (byteLength raw))) st).
Proof.
  intros Hid Hv Hnull.
  destruct (tryValidate_object raw message Hv) as [props ->].
  unfold onMessage, bind at 1, get_state. rewrite Hid, Hv.
  unfold bind, Buffer_byteLength, modify, ret; simpl.
  destruct (router (adapter st)) as [r|] eqn:Hr; simpl.
  - destruct Hnull as [?|Hs]; [discriminate|]. rewrite Hs. simpl. eauto.
  - eauto.
Qed.

(** ** Connect, start and disconnect *)

Lemma truthy_id_Some (o : option string) (s : string) :
  truthy_id o = Some s -> o = Some s /\ s <> EmptyString.
Proof. destruct o as [[|c t]|]; simpl; intros [= <-]; done. Qed.

Lemma onConnect_state (uuid : nat -> string) (st : State) (socket : nat) :
  onConnect uuid socket st
  = (Normal tt,
     match truthy_id (socket_id st !! socket) with
     | Some _ => st
     | None => set_socket_id (insert socket (uuid (next_object st))) (bump_object st)
     end).
Proof.
  unfold onConnect, bind, get_state.
  by destruct (truthy_id (socket_id st !! socket)).
Qed.

(** X7: [onConnect] keeps an id the socket already has and otherwise
    assigns the next generated one; a second [onConnect] on the same socket
    changes nothing, and other sockets, the adapter and the wire are
    untouched. *)
Theorem onConnect_assigns_id_once (uuid : nat -> string) (st : State) (socket : nat) :
  uuid (next_object st) <> EmptyString ->
  let st' := (onConnect uuid socket st).2 in
  socket_id st' !! socket
  = Some (default (uuid (next_object st)) (truthy_id (socket_id st !! socket)))
  /\ onConnect uuid socket st' = (Normal tt, st')
  /\ (forall other, other <> socket -> socket_id st' !! other = socket_id st !! other)
  /\ adapter st' = adapter st
  /\ calls st' = calls st.
Proof.
  intros Hu st'. subst st'. rewrite onConnect_state. cbn [snd].
  destruct (truthy_id (socket_id st !! socket)) as [sid|] eqn:Hid.
  - destruct (truthy_id_Some _ _ Hid) as [Hs _].
    split_and!; try done. rewrite onConnect_state. by rewrite Hid.
  - split_and!; try done.
    + simpl. apply lookup_insert_eq.
    + rewrite onConnect_state. simpl. rewrite lookup_insert_eq.
      destruct (uuid (next_object st)); done.
    + intros other Hne. simpl. by rewrite lookup_insert_ne.
Qed.

(** X11: [start] is idempotent: running it again right after itself
    returns normally and changes nothing, from any state. *)
Theorem start_twice (st : State) : start (start st).2 = (Normal tt, (start st).2).
Proof.
  assert (started (adapter (start st).2) = true) as H.
  { unfold start, bind, get_state.
    destruct (started (adapter st)) eqn:E; [done|].
    destruct (connection (adapter st)); reflexivity. }
  unfold start at 1, bind, get_state. by rewrite H.
Qed.

(** X12: starting a stopped adapter marks it started and creates the IPC
    object; in ipc mode it serves the socket path and creates no HTTP or
    WebSocket server, in tcp mode it serves host:port and makes the HTTP
    server listen on port + 1 of the same host, with a WebSocket server
    beside it. *)
Theorem start_listeners_by_mode (st : State) :
  started (adapter st) = false ->
  let st' := (start st).2 in
  let i := next_object st in
  started (adapter st') = true
  /\ ipc (adapter st') = Some i
  /\ pending (adapter st') = pending (adapter st)
  /\ match connection (adapter st) with
     | ModeIpc socketPath =>
         calls st' = (calls st ++ [IpcServe socketPath; IpcServerStart i])%list
         /\ httpServer (adapter st') = httpServer (adapter st)
         /\ wsServer (adapter st') = wsServer (adapter st)
     | ModeTcp host port =>
         calls st'
         = (calls st ++ [IpcServeNet host port; HttpListen (S i) (port + 1) host;
                         IpcServerStart i])%list
         /\ httpServer (adapter st') = Some (S i)
         /\ wsServer (adapter st') = Some (S (S i))
     end.
Proof.
  intros H st' i. subst st' i. unfold start, bind, get_state. rewrite H.
  destruct (connection (adapter st)); cbn; rewrite <- ?app_assoc; done.
Qed.

(** X8: handling the disconnect of the same socket a second time changes
    nothing. *)
Theorem disconnect_twice (st : State) (socket : nat) :
  on_socket_disconnected socket (on_socket_disconnected socket st).2
  = (Normal tt, (on_socket_disconnected socket st).2).
Proof.
  unfold on_socket_disconnected at 2 3, bind, get_state.
  destruct (truthy_id (socket_id st !! socket)) as [sid|] eqn:Hid.
  - unfold onDisconnect at 1 2, bind, get_state.
    destruct (pending (adapter st) !! sid) as [reqs|] eqn:Hp.
    + destruct (close_all reqs st) as (st1 & Hrun & Ha & _ & Hs & _).
      rewrite Hrun. cbn [snd modify].
      unfold on_socket_disconnected, bind, get_state. cbn. rewrite Hs, Hid.
      unfold onDisconnect, bind, get_state. cbn. by rewrite lookup_delete_eq.
    + cbn. unfold on_socket_disconnected, bind, get_state. rewrite Hid.
      unfold onDisconnect, bind, get_state. by rewrite Hp.
  - cbn. unfold on_socket_disconnected, bind, get_state. by rewrite Hid.
Qed.

(** X9: a disconnect leaves every request context outside the
    connection's pending list exactly as it was, and does not move either
    traffic meter or any socket id. *)
Theorem disconnect_touches_only_own_contexts (st : State) (socket : nat) (sid : string)
    (reqs : list nat) :
  truthy_id (socket_id st !! socket) = Some sid ->
  pending (adapter st) !! sid = Some reqs ->
  let st' := (on_socket_disconnected socket st).2 in
  (forall r, r ∉ reqs -> requests st' !! r = requests st !! r)
  /\ inboundTraffic (adapter st') = inboundTraffic (adapter st)
  /\ outboundTraffic (adapter st') = outboundTraffic (adapter st)
  /\ socket_id st' = socket_id st
  /\ next_object st' = next_object st.
Proof.
  intros Hid Hp st'. subst st'. unfold on_socket_disconnected, bind, get_state. rewrite Hid.
  unfold onDisconnect, bind, get_state. rewrite Hp.
  assert (forall l s, next_object (for_each RpcRequest_close l s).2 = next_object s) as Hn.
  { induction l as [|x l IH]; intros s; [done|].
    cbn [for_each]. unfold bind, RpcRequest_close at 1, modify. by rewrite IH. }
  pose proof (Hn reqs st) as Hn'.
  destruct (close_all reqs st) as (st1 & Hrun & Ha & _ & Hs & _ & Hout).
  rewrite Hrun in *. cbn. rewrite Ha. split_and!; done.
Qed.

(** X10: the disconnect of a socket that has no id, or whose id has no
    pending entry, leaves the whole state unchanged. *)
Theorem disconnect_without_pending_is_noop (st : State) (socket : nat) :
  (forall sid, truthy_id (socket_id st !! socket) = Some sid ->
               pending (adapter st) !! sid = None) ->
  on_socket_disconnected socket st = (Normal tt, st).
Proof.
  intros H. unfold on_socket_disconnected, bind, get_state.
  destruct (truthy_id (socket_id st !! socket)) as [sid|]; [|done].
  unfold onDisconnect, bind, get_state. by rewrite (H sid eq_refl).
Qed.

(** X5: chunks streamed through an open local-socket/TCP context are
    emitted as stream events in the order given, each under the request's
    id; the outbound meter grows by the sum of the chunks' serialized byte
    lengths, and the context stays open and registered. *)
Theorem stream_chunks_are_emitted_in_order (st : State) (srv socket request : nat) (id : Z)
    (q : RpcRequest) (chunks : list Js.value) :
  server (adapter st) = Some srv ->
  requests st !! request = Some q ->
  req_responder q = IpcResponder socket id ->
  req_closed q = false ->
  Forall (fun c => c <> Js.Undefined) chunks ->
  exists st',
    for_each (run_step request) (map Stream chunks) st = (Normal tt, st')
    /\ calls st' = (calls st ++ map (stream_event srv socket id) chunks)%list
    /\ bytes (outboundTraffic (adapter st'))
       = bytes (outboundTraffic (adapter st)) + foldr (fun c n => byteLength c + n) 0 chunks
    /\ requests st' = requests st
    /\ pending (adapter st') = pending (adapter st).
Proof.
  intros Hsrv Hq Hr Hopen Hdef. revert st Hsrv Hq.
  induction Hdef as [|c chunks Hc _ IH]; intros st Hsrv Hq.
  - exists st. cbn. rewrite app_nil_r. split_and!; try done. lia.
  - destruct (Js.stringify c) as [s|] eqn:Hs; [|by apply stringify_None in Hs].
    cbn [map for_each run_step]. unfold bind at 1.
    unfold RpcRequest_stream, bind at 1, get_state. rewrite Hq, Hopen, Hr. cbn [onStream].
    rewrite (emitStream_defined st srv socket id c s Hsrv Hs).
    match goal with |- context [for_each _ _ ?s1] =>
      destruct (IH s1) as (st' & Hrun & Hcalls & Hbytes & Hreqs & Hpend); [done | done |]
    end.
    assert (byteLength c = Z.of_nat (String.length s)) as Hlen
      by (unfold byteLength; by rewrite Hs).
    exists st'. split; [exact Hrun|]. rewrite Hcalls, Hbytes, Hreqs, Hpend.
    cbn. rewrite <- app_assoc, Hlen.
    split_and!; try done. lia.
Qed.

(** ** The registry shrinks only on disconnect *)

Lemma rk_refl st : registry_kept st st.
Proof. intros sid reqs H. exists []. by rewrite app_nil_r. Qed.

Lemma rk_trans a b c : registry_kept a b -> registry_kept b c -> registry_kept a c.
Proof.
  intros Hab Hbc sid reqs H.
  destruct (Hab sid reqs H) as (m1 & H1). destruct (Hbc sid _ H1) as (m2 & H2).
  exists (m1 ++ m2)%list. by rewrite H2, app_assoc.
Qed.

Lemma rk_same st st' :
  pending (adapter st') = pending (adapter st) -> registry_kept st st'.
Proof. intros E sid reqs H. exists []. by rewrite E, app_nil_r. Qed.

Lemma rk_modify (f : State -> State) :
  (forall st, pending (adapter (f st)) = pending (adapter st)) ->
  preserves registry_kept (modify f).
Proof. intros H st. apply rk_same. apply H. Qed.

Lemma rk_new_object : preserves registry_kept new_object.
Proof. intros st. by apply rk_same. Qed.

Lemma rk_register sid request :
  preserves registry_kept
    (modify (set_adapter
               (with_pending
                  (fun p => <[sid := (default [] (p !! sid) ++ [request])%list]> p)))).
Proof.
  intros st sid' reqs H. simpl.
  destruct (decide (sid = sid')) as [->|Hne].
  - exists [request]. rewrite lookup_insert_eq, H. done.
  - exists []. rewrite lookup_insert_ne by done. by rewrite app_nil_r.
Qed.

Ltac registry :=
  frame_with rk_refl rk_trans
    ltac:(first [ apply rk_register
                | apply rk_new_object
                | apply rk_modify; intros ?; reflexivity ]).

Lemma rk_RpcRequest_end request payload status :
  preserves registry_kept (RpcRequest_end request payload status).
Proof. unfold RpcRequest_end, onEnd, emitResponse, call. registry. Qed.

Lemma rk_RpcRequest_stream request payload :
  preserves registry_kept (RpcRequest_stream request payload).
Proof. unfold RpcRequest_stream, onStream, emitStream, call. registry. Qed.

Lemma rk_run_step request step : preserves registry_kept (run_step request step).
Proof. destruct step; [apply rk_RpcRequest_stream | apply rk_RpcRequest_end]. Qed.

Lemma rk_onMessage stack socket raw :
  preserves registry_kept (onMessage stack socket raw).
Proof.
  unfold onMessage, handleMalformedRequest, new_request, onMessage_route, Router_route,
    emitResponse, call.
  registry; apply rk_run_step.
Qed.

(** X22: no operation of the adapter other than the disconnect listener
    removes a registered request context: handling a message, a connect, a
    start, the served callback, an attach, an HTTP request, a WebSocket
    connection, and the respond, stream and close operations of a context
    keep every pending list, at most extending it at its end; a disconnect
    leaves the entry of every other connection id as it was. *)
Theorem registry_shrinks_only_on_disconnect stack (uuid : nat -> string) (st : State) :
  (forall socket raw, registry_kept st (onMessage stack socket raw st).2)
  /\ (forall socket, registry_kept st (onConnect uuid socket st).2)
  /\ registry_kept st (start st).2
  /\ registry_kept st (onServed st).2
  /\ (forall r, registry_kept st (attach r st).2)
  /\ (forall request response,
        registry_kept st (http_request_listener stack request response st).2)
  /\ (forall wsClient request,
        registry_kept st (ws_connection_listener wsClient request st).2)
  /\ (forall request payload status,
        registry_kept st (RpcRequest_end request payload status st).2)
  /\ (forall request payload, registry_kept st (RpcRequest_stream request payload st).2)
  /\ (forall request, registry_kept st (RpcRequest_close request st).2)
  /\ (forall socket sid other reqs,
        truthy_id (socket_id st !! socket) = Some sid ->
        other <> sid ->
        pending (adapter st) !! other = Some reqs ->
        pending (adapter (on_socket_disconnected socket st).2) !! other = Some reqs).
Proof.
  split_and!.
  - intros socket raw. apply rk_onMessage.
  - intros socket. rewrite onConnect_state. apply rk_same.
    by destruct (truthy_id (socket_id st !! socket)).
  - apply rk_same. unfold start, bind, get_state.
    destruct (started (adapter st)); [done|].
    by destruct (connection (adapter st)).
  - by apply rk_same.
  - intros r. by apply rk_same.
  - intros request response. apply rk_same.
    unfold http_request_listener, bind, new_Request, throw, ret.
    destruct (String.eqb (method request) "POST" || String.eqb (method request) "PUT");
      [destruct (parsed_body request)|]; reflexivity.
  - intros wsClient request. apply rk_same. unfold ws_connection_listener.
    by destruct (negb (Js.endsWith (Js.substring1 (pathname request)) "Stream")).
  - intros request payload status. apply rk_RpcRequest_end.
  - intros request payload. apply rk_RpcRequest_stream.
  - intros request. by apply rk_same.
  - intros socket sid other reqs Hid Hne Hp.
    unfold on_socket_disconnected, bind, get_state. rewrite Hid.
    unfold onDisconnect, bind, get_state.
    destruct (pending (adapter st) !! sid) as [own|] eqn:Hown; [|done].
    destruct (close_all own st) as (st1 & Hrun & Ha & _).
    rewrite Hrun. simpl. rewrite Ha, lookup_delete_ne by done. exact Hp.
Qed.

(** ** Witnesses *)

Lemma malformed_message_is_answered_witness :
  truthy_id (socket_id ready_state !! 7%nat) = Some "client"
  /\ tryValidate (Js.Obj [("id", Js.Num 3); ("type", Js.Num 0)]) = None
  /\ server (adapter ready_state) = Some 0%nat
  /\ onMessage None 7 (Js.Obj [("id", Js.Num 3); ("type", Js.Num 0)]) ready_state
     = (Normal tt,
        set_adapter (with_outbound (Meter_add (byteLength (malformed_error None))))
          (add_call
             match Js.prop "id" (Js.Obj [("id", Js.Num 3); ("type", Js.Num 0)]) with
             | Js.Num id =>
                 ServerEmit 0 7 "message"
                   (Js.Obj [("id", Js.Num id); ("status", Js.Num 500);
                            ("data", malformed_error None)])
             | _ => ServerEmit 0 7 "malformedRequest" (malformed_error None)
             end ready_state)).
Proof.
  split; [reflexivity|]. split; [reflexivity|]. split; [reflexivity|].
  apply (malformed_message_is_answered None ready_state 7 "client"
           (Js.Obj [("id", Js.Num 3); ("type", Js.Num 0)]) 0); reflexivity.
Defined.

Example malformed_string_gets_the_event :
  calls (state_after (onMessage None 7 (Js.Str "ping")) ready_state)
  = (calls ready_state ++ [ServerEmit 0 7 "malformedRequest" (malformed_error None)])%list.
Proof. vm_compute. reflexivity. Qed.


Lemma ws_stream_route_throws_before_routing_witness :
  Js.endsWith (Js.substring1 (pathname get_follow_stream)) "Stream" = true
  /\ ws_connection_listener 3 get_follow_stream ready_state
     = (Thrown Request_unbound, ready_state).
Proof.
  split; [reflexivity|].
  apply (ws_stream_route_throws_before_routing ready_state 3 get_follow_stream).
  reflexivity.
Defined.

Lemma valid_message_registers_one_context_witness :
  truthy_id (socket_id busy_state !! 7%nat) = Some "client"
  /\ tryValidate (message 1 "chain/getInfo") = Some info_message
  /\ router (adapter busy_state) = Some demo_router
  /\ server (adapter busy_state) = Some 0%nat
  /\ pending (adapter (onMessage None 7 (message 1 "chain/getInfo") busy_state).2)
     = <["client" := (default [] (pending (adapter busy_state) !! "client")
                      ++ [next_object busy_state])%list]> (pending (adapter busy_state))
  /\ inboundTraffic (adapter (onMessage None 7 (message 1 "chain/getInfo") busy_state).2)
     = Meter_add (byteLength (message 1 "chain/getInfo")) (inboundTraffic (adapter busy_state)).
Proof.
  split; [reflexivity|]. split; [reflexivity|]. split; [reflexivity|]. split; [reflexivity|].
  apply (valid_message_registers_one_context None busy_state 7 "client"
           (message 1 "chain/getInfo") info_message demo_router 0); reflexivity.
Defined.

Lemma message_traffic_is_correlated_witness :
  truthy_id (socket_id ready_state !! 7%nat) = Some "client"
  /\ tryValidate (message 1 "chain/getInfo") = Some info_message
  /\ router (adapter ready_state) = Some demo_router
  /\ server (adapter ready_state) = Some 0%nat
  /\ exists new,
      calls (onMessage None 7 (message 1 "chain/getInfo") ready_state).2
      = (calls ready_state ++ new)%list
      /\ Forall (answers_on 0 7 (mid info_message)) new.
Proof.
  split; [reflexivity|]. split; [reflexivity|]. split; [reflexivity|]. split; [reflexivity|].
  apply (message_traffic_is_correlated None ready_state 7 "client"
           (message 1 "chain/getInfo") info_message demo_router 0); reflexivity.
Defined.

Lemma http_invalid_body_leaves_response_open_witness :
  http_params post_garbage = None
  /\ exists e, http_request_listener None post_garbage 9 ready_state = (Thrown e, ready_state).
Proof.
  split; [reflexivity|].
  apply (http_invalid_body_leaves_response_open None ready_state post_garbage 9).
  reflexivity.
Defined.

Lemma valid_message_before_wiring_witness :
  truthy_id (socket_id unattached_state !! 7%nat) = Some "client"
  /\ tryValidate (message 1 "chain/getInfo") = Some info_message
  /\ router (adapter unattached_state) = None
  /\ exists e,
      onMessage None 7 (message 1 "chain/getInfo") unattached_state
      = (Thrown e,
         set_adapter (with_inbound (Meter_add (byteLength (message 1 "chain/getInfo"))))
           unattached_state).
Proof.
  split; [reflexivity|]. split; [reflexivity|]. split; [reflexivity|].
  apply (valid_message_before_wiring None unattached_state 7 "client"
           (message 1 "chain/getInfo") info_message); [reflexivity | reflexivity |].
  left. reflexivity.
Defined.

Lemma onConnect_assigns_id_once_witness :
  demo_uuid (next_object ready_state) <> EmptyString
  /\ socket_id (onConnect demo_uuid 8 ready_state).2 !! 8%nat
     = Some (default (demo_uuid (next_object ready_state))
               (truthy_id (socket_id ready_state !! 8%nat)))
  /\ onConnect demo_uuid 8 (onConnect demo_uuid 8 ready_state).2
     = (Normal tt, (onConnect demo_uuid 8 ready_state).2)
  /\ (forall other, other <> 8%nat ->
        socket_id (onConnect demo_uuid 8 ready_state).2 !! other
        = socket_id ready_state !! other)
  /\ adapter (onConnect demo_uuid 8 ready_state).2 = adapter ready_state
  /\ calls (onConnect demo_uuid 8 ready_state).2 = calls ready_state.
Proof.
  split; [discriminate|].
  apply (onConnect_assigns_id_once demo_uuid ready_state 8). discriminate.
Defined.

Lemma start_listeners_by_mode_witness :
  let st := initial_state (ModeTcp "localhost" 8020) in
  started (adapter st) = false
  /\ started (adapter (start st).2) = true
  /\ ipc (adapter (start st).2) = Some (next_object st)
  /\ pending (adapter (start st).2) = pending (adapter st)
  /\ calls (start st).2
     = (calls st ++ [IpcServeNet "localhost" 8020;
                     HttpListen (S (next_object st)) (8020 + 1) "localhost";
                     IpcServerStart (next_object st)])%list
  /\ httpServer (adapter (start st).2) = Some (S (next_object st))
  /\ wsServer (adapter (start st).2) = Some (S (S (next_object st))).
Proof.
  intros st. split; [reflexivity|].
  exact (start_listeners_by_mode st eq_refl).
Defined.

Lemma disconnect_touches_only_own_contexts_witness :
  truthy_id (socket_id busy_state !! 7%nat) = Some "client"
  /\ pending (adapter busy_state) !! "client" = Some [4%nat; 5%nat]
  /\ (forall r, r ∉ [4%nat; 5%nat] ->
        requests (on_socket_disconnected 7 busy_state).2 !! r = requests busy_state !! r)
  /\ inboundTraffic (adapter (on_socket_disconnected 7 busy_state).2)
     = inboundTraffic (adapter busy_state)
  /\ outboundTraffic (adapter (on_socket_disconnected 7 busy_state).2)
     = outboundTraffic (adapter busy_state)
  /\ socket_id (on_socket_disconnected 7 busy_state).2 = socket_id busy_state
  /\ next_object (on_socket_disconnected 7 busy_state).2 = next_object busy_state.
Proof.
  split; [reflexivity|]. split; [reflexivity|].
  apply (disconnect_touches_only_own_contexts busy_state 7 "client" [4%nat; 5%nat]);
    reflexivity.
Defined.

Lemma disconnect_without_pending_is_noop_witness :
  (forall sid, truthy_id (socket_id ready_state !! 7%nat) = Some sid ->
               pending (adapter ready_state) !! sid = None)
  /\ on_socket_disconnected 7 ready_state = (Normal tt, ready_state).
Proof.
  assert (forall sid, truthy_id (socket_id ready_state !! 7%nat) = Some sid ->
                      pending (adapter ready_state) !! sid = None) as H.
  { intros sid Hs. vm_compute in Hs. injection Hs as <-. reflexivity. }
  split; [exact H|].
  exact (disconnect_without_pending_is_noop ready_state 7 H).
Defined.

Lemma stream_chunks_are_emitted_in_order_witness :
  server (adapter busy_state) = Some 0%nat
  /\ requests busy_state !! 4%nat = Some first_stream_request
  /\ Forall (fun c => c <> Js.Undefined) [Js.Num 1; Js.Str "a"]
  /\ exists st',
      for_each (run_step 4) (map Stream [Js.Num 1; Js.Str "a"]) busy_state = (Normal tt, st')
      /\ calls st'
         = (calls busy_state ++ map (stream_event 0 7 1) [Js.Num 1; Js.Str "a"])%list
      /\ bytes (outboundTraffic (adapter st'))
         = bytes (outboundTraffic (adapter busy_state))
           + foldr (fun c n => byteLength c + n) 0 [Js.Num 1; Js.Str "a"]
      /\ requests st' = requests busy_state
      /\ pending (adapter st') = pending (adapter busy_state).
Proof.
  assert (Forall (fun c => c <> Js.Undefined) [Js.Num 1; Js.Str "a"]) as Hdef
    by (repeat constructor; discriminate).
  split; [reflexivity|]. split; [reflexivity|]. split; [exact Hdef|].
  apply (stream_chunks_are_emitted_in_order busy_state 0 7 4 1 first_stream_request
           [Js.Num 1; Js.Str "a"]); [reflexivity | reflexivity | reflexivity | reflexivity
                                    | exact Hdef].
Defined.

Lemma emit_accounts_payload_bytes_witness :
  server (adapter ready_state) = Some 0%nat
  /\ Js.stringify (Js.Str "ok") = Some (Js.quote "ok")
  /\ bytes (outboundTraffic (adapter (emitResponse 7 1 200 (Js.Str "ok") ready_state).2))
     = bytes (outboundTraffic (adapter ready_state)) + Z.of_nat (String.length (Js.quote "ok"))
  /\ bytes (outboundTraffic (adapter (emitStream 7 1 (Js.Str "ok") ready_state).2))
     = bytes (outboundTraffic (adapter ready_state)) + Z.of_nat (String.length (Js.quote "ok")).
Proof.
  split; [reflexivity|]. split; [reflexivity|].
  apply (emit_accounts_payload_bytes ready_state 0 7 1 200 (Js.Str "ok") (Js.quote "ok"));
    reflexivity.
Defined.

